(** * matroska-subtitles: a shallow embedding of the subtitle parser

    The development follows the two source files of the repository:
    the parser base class with its timestamp renderer (the module source,
    [SubtitleParserBase] and [toTimeString]) and the distributed build
    [dist/matroska-subtitles.modern.js] (an earlier build of the same base
    class together with [SubtitleParser] and [SubtitleStream]).

    Conventions of the embedding.
    - JavaScript strings are represented by [string], the bytes of their
      UTF-8 encoding; [toString('utf8')] on a buffer is the identity on
      those bytes (payloads are taken to be valid UTF-8) and [toLowerCase]
      acts on the ASCII letters (codec identifiers are ASCII).
    - JavaScript numbers are doubles ([jsnum]): a finite one is given by
      the rational it denotes.  Sums, products and the quotient that
      computes the timecode scale are rounded to the nearest double,
      ties to even, and overflow to an infinity ([round64]).  The two
      zeros are not told apart: they print and compare alike.  The code
      only ever divides by nonzero literals.  The renderer takes integer
      parts of quotients; there the quotients are exact ([ndiv]).
    - [this] is a record that is threaded through a small state, event
      and exception monad; [this.emit] appends to the list of events.
    - The EBML decoder, zlib's [inflateSync] and the conversion of a
      string to a number are external; they are variables of the section
      that holds the parser. *)

From Stdlib Require Import ZArith QArith Qround List Bool Lia.
From Stdlib Require Import Strings.String Strings.Ascii Strings.Byte.
From Stdlib Require Import Numbers.DecimalString.
Import ListNotations.

Open Scope list_scope.
Open Scope string_scope.

(** ** JavaScript numbers *)

(** A number is an IEEE 754 binary64 value: a finite double, given by
    the rational it denotes, one of the two infinities, or NaN.  The
    two zeros are both [Num 0]. *)
Inductive jsnum : Type :=
| Num (q : Q)
| Inf (negative : bool)
| NaN.

(** The result of [Math.floor]: an integer-valued number, an infinity
    or NaN. *)
Inductive jsint : Type :=
| Int (z : Z)
| IntInf (negative : bool)
| IntNaN.

(** The number of an integer the decoder hands over (exact up to
    2^53). *)
Definition ofZ (z : Z) : jsnum := Num (inject_Z z).

(** *** Rounding to the nearest double *)

(** The integer part of the binary logarithm of [a / b]. *)
Definition log2_ratio (a b : positive) : Z :=
  let e := (Z.log2 (Zpos a) - Z.log2 (Zpos b))%Z in
  let ge := if (0 <=? e)%Z then (Zpos b * 2 ^ e <=? Zpos a)%Z
            else (Zpos b <=? Zpos a * 2 ^ (- e))%Z in
  if ge then e else (e - 1)%Z.

(** The integer nearest to [a / b] for positive [b], ties to the even
    one. *)
Definition round_half_even (a b : Z) : Z :=
  let k := (a / b)%Z in
  let r := (a mod b)%Z in
  match (2 * r ?= b)%Z with
  | Lt => k
  | Gt => (k + 1)%Z
  | Eq => if Z.even k then k else (k + 1)%Z
  end.

(** The double nearest to [a / b]: a significand of 53 bits at the
    exponent of [a / b], at least the exponent of the subnormal numbers;
    what reaches 2^1024 overflows to infinity. *)
Definition round64_pos (a b : positive) : jsnum :=
  let e := log2_ratio a b in
  let p := Z.max (e - 52) (-1074) in
  if (0 <=? p)%Z then
    let m := round_half_even (Zpos a) (Zpos b * 2 ^ p) in
    if (2 ^ 1024 <=? m * 2 ^ p)%Z then Inf false
    else Num (inject_Z (m * 2 ^ p))
  else
    let m := round_half_even (Zpos a * 2 ^ (- p)) (Zpos b) in
    Num (Qred (m # Z.to_pos (2 ^ (- p)))).

Definition nneg (a : jsnum) : jsnum :=
  match a with
  | Num q => Num (- q)
  | Inf s => Inf (negb s)
  | NaN => NaN
  end.

(** The result of an arithmetic operation whose exact value is [q]:
    round to nearest, ties to even. *)
Definition round64 (q : Q) : jsnum :=
  let r := Qred q in
  match Qnum r with
  | Z0 => Num 0
  | Zpos a => round64_pos a (Qden r)
  | Zneg a => nneg (round64_pos a (Qden r))
  end.

(** [x < 0] on rationals. *)
Definition Qneg_bool (x : Q) : bool := (Qnum x <? 0)%Z.

(** [x = 0] on rationals. *)
Definition Qzero_bool (x : Q) : bool := (Qnum x =? 0)%Z.

(** *** The operators *)

(** [a + b] on numbers. *)
Definition nadd (a b : jsnum) : jsnum :=
  match a, b with
  | Num x, Num y => round64 (x + y)
  | Num _, Inf s => Inf s
  | Inf s, Num _ => Inf s
  | Inf s, Inf t => if Bool.eqb s t then Inf s else NaN
  | _, _ => NaN
  end.

(** The product of an infinity of sign [s] and the finite [y]. *)
Definition inf_times (s : bool) (y : Q) : jsnum :=
  if Qzero_bool y then NaN else Inf (xorb s (Qneg_bool y)).

(** [a * b] on numbers. *)
Definition nmul (a b : jsnum) : jsnum :=
  match a, b with
  | Num x, Num y => round64 (x * y)
  | Num x, Inf s => inf_times s x
  | Inf s, Num y => inf_times s y
  | Inf s, Inf t => Inf (xorb s t)
  | _, _ => NaN
  end.

(** [a / c] for a positive integer literal [c], rounded as the
    operator rounds. *)
Definition nquot (a : jsnum) (c : positive) : jsnum :=
  match a with
  | Num x => round64 (x / inject_Z (Zpos c))
  | Inf s => Inf s
  | NaN => NaN
  end.

(** [a / c] for a positive integer literal [c], the quotient taken
    exactly: this is the division of the renderer, which only looks at
    the integer parts of its quotients and remainders.  The quotients of
    the code are rounded ([nquot]); for a time that is a double of less
    than 2^53 milliseconds the rounded ones do not reach an integer that
    the exact ones stay below, so the integer parts are the same.  The
    statements about the renderer's fields are made for such times. *)
Definition ndiv (a : jsnum) (c : positive) : jsnum :=
  match a with
  | Num x => Num (x / inject_Z (Zpos c))
  | Inf s => Inf s
  | NaN => NaN
  end.

(** Truncation towards zero, as used by the remainder operator. *)
Definition Qtrunc (x : Q) : Z :=
  if Qle_bool 0 x then Qfloor x else Qceiling x.

(** The remainder of a rational by a positive integer: it takes the sign
    of the dividend. *)
Definition Qrem (x : Q) (c : positive) : Q :=
  x - inject_Z (Zpos c) * inject_Z (Qtrunc (x / inject_Z (Zpos c))).

(** [a % c] for a positive integer literal [c]; the remainder of a
    double by a double is exact, and that of an infinity is NaN. *)
Definition nrem (a : jsnum) (c : positive) : jsnum :=
  match a with
  | Num x => Num (Qrem x c)
  | Inf _ => NaN
  | NaN => NaN
  end.

Definition Math_floor (a : jsnum) : jsint :=
  match a with
  | Num x => Int (Qfloor x)
  | Inf s => IntInf s
  | NaN => IntNaN
  end.

(** [n < k] for an integer literal [k]; false on NaN. *)
Definition int_lt (n : jsint) (k : Z) : bool :=
  match n with
  | Int z => (z <? k)%Z
  | IntInf s => s
  | IntNaN => false
  end.

Definition Z_to_string (z : Z) : string :=
  NilZero.string_of_int (Z.to_int z).

(** The string of an integer-valued number, as string concatenation
    produces it.  JavaScript prints an integer in full when it is below
    10^21 in magnitude and in exponent form from there on; the exponent
    form is not represented, so the strings are those of the code for
    integers below 10^21. *)
Definition int_to_string (n : jsint) : string :=
  match n with
  | Int z => Z_to_string z
  | IntInf false => "Infinity"
  | IntInf true => "-Infinity"
  | IntNaN => "NaN"
  end.

(** ** Strings *)

(** [s.split(',')] for a one-character separator: never empty. *)
Fixpoint split (sep : ascii) (s : string) : list string :=
  match s with
  | EmptyString => [EmptyString]
  | String c s' =>
      if Ascii.eqb c sep then EmptyString :: split sep s'
      else match split sep s' with
           | h :: t => String c h :: t
           | [] => [String c EmptyString]
           end
  end.

(** [a.join(sep)] on an array of strings. *)
Fixpoint join (sep : string) (l : list string) : string :=
  match l with
  | [] => EmptyString
  | [x] => x
  | x :: rest => x ++ sep ++ join sep rest
  end.

(** [s.substring(n)]. *)
Fixpoint substring_from (n : nat) (s : string) : string :=
  match n, s with
  | O, _ => s
  | S n', String _ s' => substring_from n' s'
  | S _, EmptyString => EmptyString
  end.

Definition startsWith (s p : string) : bool := String.prefix p s.

Definition lower_ascii (c : ascii) : ascii :=
  let n := nat_of_ascii c in
  if andb (65 <=? n)%nat (n <=? 90)%nat then ascii_of_nat (n + 32) else c.

Fixpoint toLowerCase (s : string) : string :=
  match s with
  | EmptyString => EmptyString
  | String c s' => String (lower_ascii c) (toLowerCase s')
  end.

Definition comma : ascii := ","%char.

(** ** The timestamp renderer *)

Definition toTimeString (ms : jsnum) (ass comma : bool) : string :=
  let hh := Math_floor (ndiv (ndiv ms 1000) 3600) in
  let mm := Math_floor (nrem (ndiv (ndiv ms 1000) 60) 60) in
  let ss := Math_floor (nrem (ndiv ms 1000) 60) in
  let ff := Math_floor (if ass then ndiv (nrem ms 1000) 10 else nrem ms 1000) in
  (if ass then int_to_string hh else (if int_lt hh 10 then "0" else "")) ++
  ":" ++
  (if int_lt mm 10 then "0" else "") ++
  int_to_string mm ++
  ":" ++
  (if int_lt ss 10 then "0" else "") ++
  int_to_string ss ++
  (if comma then "," else ".") ++
  (if ass then "" else (if int_lt ff 100 then "0" else "")) ++
  (if int_lt ff 10 then "0" else "") ++
  int_to_string ff.

(** The four fields of a time of [ms] whole milliseconds, and the two
    fractions, as the specification defines them. *)
Definition hours (ms : Z) : Z := (ms / 3600000)%Z.
Definition minutes (ms : Z) : Z := ((ms / 60000) mod 60)%Z.
Definition seconds (ms : Z) : Z := ((ms / 1000) mod 60)%Z.
Definition centiseconds (ms : Z) : Z := ((ms mod 1000) / 10)%Z.
Definition milliseconds (ms : Z) : Z := (ms mod 1000)%Z.

(** A number below 100 on two digits, below 1000 on three. *)
Definition pad2 (z : Z) : string :=
  (if (z <? 10)%Z then "0" else "") ++ Z_to_string z.
Definition pad3 (z : Z) : string :=
  (if (z <? 100)%Z then "0" else "") ++ pad2 z.

(** ** Values and decoded elements *)

(** Values that the decoder attaches to elements and that the parser keeps
    in its fields.  The decoder delivers integers for the integer
    elements read here (TimecodeScale, Timecode, TrackType, TrackNumber,
    BlockDuration), strings for text elements and buffers for binary
    ones. *)
Inductive jsval : Type :=
| VUndefined
| VNull
| VInt (z : Z)
| VStr (s : string)
| VBuf (b : list byte).

Definition Buffer_toString (b : list byte) : string := string_of_list_byte b.

(** Truthiness, as tested by [if (v)] and [v || w]. *)
Definition truthy (v : jsval) : bool :=
  match v with
  | VUndefined | VNull => false
  | VInt z => negb (z =? 0)%Z
  | VStr s => negb (String.eqb s "")
  | VBuf _ => true
  end.

Definition js_or (v w : jsval) : jsval := if truthy v then v else w.

(** [v === w] against a primitive; two buffers are distinct objects. *)
Definition strict_eq (v w : jsval) : bool :=
  match v, w with
  | VUndefined, VUndefined => true
  | VNull, VNull => true
  | VInt x, VInt y => (x =? y)%Z
  | VStr s, VStr t => String.eqb s t
  | _, _ => false
  end.

(** The string of a value in a concatenation or through [toString()]. *)
Definition ToString (v : jsval) : string :=
  match v with
  | VUndefined => "undefined"
  | VNull => "null"
  | VInt z => Z_to_string z
  | VStr s => s
  | VBuf b => Buffer_toString b
  end.

Inductive EbmlTagId : Type :=
| TimecodeScale | Timecode | Cluster
| Tracks | TrackEntry | TrackNumber | TrackType | CodecID | CodecPrivate
| Name | Language
| ContentEncodings | ContentEncoding | ContentCompression
| BlockGroup | Block | BlockDuration
| AttachedFile | FileName | FileMimeType | FileData
| OtherId (code : N).

Definition EbmlTagId_eq_dec (a b : EbmlTagId) : {a = b} + {a <> b}.
Proof. decide equality. apply N.eq_dec. Defined.

Definition id_eqb (a b : EbmlTagId) : bool :=
  if EbmlTagId_eq_dec a b then true else false.

(** An element as the decoder delivers it.  [track], [value] and
    [payload] are the members of the decoder's block objects; the parser
    reads them only on the child found under the id [Block]. *)
#[warnings="-register-all"]
Inductive EbmlTag : Type :=
| mkTag (id : EbmlTagId) (data : jsval) (Children : list EbmlTag)
        (track : Z) (value : Z) (payload : list byte).

Definition id (c : EbmlTag) : EbmlTagId := let (i, _, _, _, _, _) := c in i.
Definition data (c : EbmlTag) : jsval := let (_, d, _, _, _, _) := c in d.
Definition Children (c : EbmlTag) : list EbmlTag := let (_, _, ch, _, _, _) := c in ch.
Definition track (c : EbmlTag) : Z := let (_, _, _, t, _, _) := c in t.
Definition value (c : EbmlTag) : Z := let (_, _, _, _, v, _) := c in v.
Definition payload (c : EbmlTag) : list byte := let (_, _, _, _, _, p) := c in p.

(** A data element, a master element and a block. *)
Definition leaf (i : EbmlTagId) (d : jsval) : EbmlTag := mkTag i d [] 0 0 [].
Definition master (i : EbmlTagId) (ch : list EbmlTag) : EbmlTag :=
  mkTag i VUndefined ch 0 0 [].
Definition mkBlock (t v : Z) (p : list byte) : EbmlTag :=
  mkTag Block VUndefined [] t v p.

Definition getData (chunk : EbmlTag) (i : EbmlTagId) : jsval :=
  match find (fun c => id_eqb (id c) i) (Children chunk) with
  | Some el => data el
  | None => VUndefined
  end.

(** ** Track records and the registry *)

Record Track : Type := mkTrack {
  number : jsval;
  language : jsval;
  type : string;
  name : option jsval;
  header : option string;
  _compressed : bool
}.

(** Key equality of a [Map] (SameValueZero); two buffers are distinct
    objects. *)
Definition same_key (a b : jsval) : bool := strict_eq a b.

(** The registry: a [Map] in insertion order. *)
Definition TrackMap : Type := list (jsval * Track).

Fixpoint Map_set (m : TrackMap) (k : jsval) (v : Track) : TrackMap :=
  match m with
  | [] => [(k, v)]
  | (k', v') :: rest =>
      if same_key k' k then (k', v) :: rest else (k', v') :: Map_set rest k v
  end.

Fixpoint Map_get (m : TrackMap) (k : jsval) : option Track :=
  match m with
  | [] => None
  | (k', v') :: rest => if same_key k' k then Some v' else Map_get rest k
  end.

Definition Map_has (m : TrackMap) (k : jsval) : bool :=
  match Map_get m k with Some _ => true | None => false end.

Definition Map_values (m : TrackMap) : list Track := map snd m.

Definition Map_size (m : TrackMap) : nat := List.length m.

(** ** Cues and events *)

Inductive propval : Type :=
| PUndefined
| PStr (s : string)
| PNum (n : jsnum).

(** A cue: an object as the list of its properties in creation order. *)
Definition JSObject : Type := list (string * propval).

Fixpoint obj_set (o : JSObject) (k : string) (v : propval) : JSObject :=
  match o with
  | [] => [(k, v)]
  | (k', v') :: rest =>
      if String.eqb k' k then (k', v) :: rest else (k', v') :: obj_set rest k v
  end.

(** [o[k]]: [None] when the object has no such property. *)
Fixpoint obj_get (o : JSObject) (k : string) : option propval :=
  match o with
  | [] => None
  | (k', v') :: rest => if String.eqb k' k then Some v' else obj_get rest k
  end.

Inductive Event : Type :=
| EvTracks (tracks : list Track)
| EvSubtitle (subtitle : JSObject) (trackNumber : Z)
| EvFile (filename mimetype filedata : jsval).

Definition SSA_TYPES : list string := ["ssa"; "ass"].
Definition SSA_KEYS : list string :=
  ["readOrder"; "layer"; "style"; "name"; "marginL"; "marginR"; "marginV";
   "effect"; "text"].

Definition Set_has (s : list string) (x : string) : bool :=
  existsb (String.eqb x) s.

(** [a[i]] on an array of strings. *)
Definition item (a : list string) (i : nat) : propval :=
  match nth_error a i with
  | Some s => PStr s
  | None => PUndefined
  end.

(** The string of [a[i]] in a concatenation. *)
Definition item_string (a : list string) (i : nat) : string :=
  match nth_error a i with
  | Some s => s
  | None => "undefined"
  end.

(** ** The parser object and its monad *)

(** [this].  [decoder] is the decoder seen from outside: the chunks
    written to it so far.  [unstable] is the field of [SubtitleStream]
    (left undefined, hence false, elsewhere); [ended] records that
    [end()] was called on the writable side. *)
Record SubtitleParserBase : Type := mkParser {
  subtitleTracks : TrackMap;
  timecodeScale : jsnum;
  _currentClusterTimecode : jsval;
  decoder : list (list byte);
  unstable : bool;
  ended : bool
}.

Inductive completion (A : Type) : Type :=
| Normal (a : A)
| Thrown.
Arguments Normal {A} a.
Arguments Thrown {A}.

(** A method body: from [this] to its completion, the updated [this] and
    the events emitted meanwhile. *)
Definition M (A : Type) : Type :=
  SubtitleParserBase -> completion A * SubtitleParserBase * list Event.

Definition ret {A} (a : A) : M A := fun this => (Normal a, this, []).

Definition bind {A B} (m : M A) (k : A -> M B) : M B :=
  fun this =>
    match m this with
    | (Normal a, this', ev) =>
        match k a this' with
        | (r, this'', ev') => (r, this'', (ev ++ ev')%list)
        end
    | (Thrown, this', ev) => (Thrown, this', ev)
    end.

Notation "x <- m ;; k" := (bind m (fun x => k))
  (at level 61, m at next level, right associativity).
Notation "m ;; k" := (bind m (fun _ => k))
  (at level 61, right associativity).

Definition throw {A} : M A := fun this => (Thrown, this, []).
Definition get : M SubtitleParserBase := fun this => (Normal this, this, []).
Definition emit (e : Event) : M unit := fun this => (Normal tt, this, [e]).

(** [try { m } catch (err) { }]. *)
Definition try_catch (m : M unit) : M unit :=
  fun this =>
    match m this with
    | (Normal a, this', ev) => (Normal a, this', ev)
    | (Thrown, this', ev) => (Normal tt, this', ev)
    end.

Definition when (b : bool) (m : M unit) : M unit := if b then m else ret tt.

(** [for (const x of l) body]. *)
Fixpoint forEach {A} (l : list A) (body : A -> M unit) : M unit :=
  match l with
  | [] => ret tt
  | x :: rest => body x ;; forEach rest body
  end.

Definition set_subtitleTracks (m : TrackMap) : M unit :=
  fun this => (Normal tt,
    mkParser m (timecodeScale this) (_currentClusterTimecode this)
             (decoder this) (unstable this) (ended this), []).
Definition set_timecodeScale (s : jsnum) : M unit :=
  fun this => (Normal tt,
    mkParser (subtitleTracks this) s (_currentClusterTimecode this)
             (decoder this) (unstable this) (ended this), []).
Definition set_currentClusterTimecode (v : jsval) : M unit :=
  fun this => (Normal tt,
    mkParser (subtitleTracks this) (timecodeScale this) v
             (decoder this) (unstable this) (ended this), []).
Definition set_decoder (d : list (list byte)) : M unit :=
  fun this => (Normal tt,
    mkParser (subtitleTracks this) (timecodeScale this)
             (_currentClusterTimecode this) d (unstable this) (ended this), []).
Definition set_unstable (b : bool) : M unit :=
  fun this => (Normal tt,
    mkParser (subtitleTracks this) (timecodeScale this)
             (_currentClusterTimecode this) (decoder this) b (ended this), []).
Definition set_ended (b : bool) : M unit :=
  fun this => (Normal tt,
    mkParser (subtitleTracks this) (timecodeScale this)
             (_currentClusterTimecode this) (decoder this) (unstable this) b, []).

(** ** The parser *)

Section Parser.

(** The conversion of a string to a number (external: the language). *)
Variable StringToNumber : string -> jsnum.

(** zlib's [inflateSync]; [None] when it throws on malformed input. *)
Variable inflateSync : list byte -> option (list byte).

(** The decoder: the elements it delivers as ['data'] events, in order,
    when a chunk is written after the chunks written before, and whether
    that write then throws. *)
Variable decoder_data : list (list byte) -> list byte -> list EbmlTag.
Variable decoder_throws : list (list byte) -> list byte -> bool.

(** The number of a value, as arithmetic takes it. *)
Definition ToNumber (v : jsval) : jsnum :=
  match v with
  | VUndefined => NaN
  | VNull => ofZ 0
  | VInt z => ofZ z
  | VStr s => StringToNumber s
  | VBuf b => StringToNumber (Buffer_toString b)
  end.

(** [n + v] for a number [n] of the block: an addition, unless [v] is
    text, which is concatenated and read back as a number by the
    following multiplication. *)
Definition js_plus (n : Z) (v : jsval) : jsnum :=
  match v with
  | VUndefined => NaN
  | VNull => ofZ n
  | VInt z => nadd (ofZ n) (ofZ z)
  | VStr s => StringToNumber (Z_to_string n ++ s)
  | VBuf b => StringToNumber (Z_to_string n ++ Buffer_toString b)
  end.

(** [inflateSync(Buffer.from(p))] inside a method. *)
Definition inflate (p : list byte) : M (list byte) :=
  match inflateSync p with
  | Some b => ret b
  | None => throw
  end.

(** [entry.Children.find(c => ... ContentEncodings && c.Children.find(cc =>
    ... ContentEncoding && cc.Children.find(ccc => ... ContentCompression)))]
    as a condition. *)
Definition find_compression (entry : EbmlTag) : bool :=
  existsb (fun c =>
    id_eqb (id c) ContentEncodings &&
    existsb (fun cc =>
      id_eqb (id cc) ContentEncoding &&
      existsb (fun ccc => id_eqb (id ccc) ContentCompression) (Children cc))
      (Children c))
    (Children entry).

(** The body of the loop over the entries of a Tracks element. *)
Definition registerEntry (entry : EbmlTag) : M unit :=
  (* Skip non subtitle tracks *)
  if negb (strict_eq (getData entry TrackType) (VInt 17)) then ret tt
  else
    match js_or (getData entry CodecID) (VStr "") with
    | VStr codecID =>
        if startsWith codecID "S_TEXT" then
          let name := getData entry Name in
          let header := getData entry CodecPrivate in
          let track := {|
            number := getData entry TrackNumber;
            language := getData entry Language;
            type := toLowerCase (substring_from 7 codecID);
            name := if truthy name then Some name else None;
            header := if truthy header then Some (ToString header) else None;
            _compressed := find_compression entry
          |} in
          this <- get ;;
          set_subtitleTracks (Map_set (subtitleTracks this) (number track) track)
        else ret tt
    | _ => throw (* codecID.startsWith is not a function *)
    end.

(** The Tracks branch. *)
Definition parseTracks (chunk : EbmlTag) : M unit :=
  forEach (filter (fun c => id_eqb (id c) TrackEntry) (Children chunk))
          registerEntry ;;
  this <- get ;;
  emit (EvTracks (Map_values (subtitleTracks this))).

(** The loop [for (let i = ...; i < 8; i++) subtitle[SSA_KEYS[i]] = values[i]]. *)
Definition assign_keys (type : string) (values : list string)
    (subtitle : JSObject) : JSObject :=
  let start := if String.eqb type "ssa" then 2%nat else 1%nat in
  fold_left (fun o i => obj_set o (nth i SSA_KEYS "undefined") (item values i))
            (seq start (8 - start)) subtitle.

(** The Dialogue line built in the SSA/ASS branch. *)
Definition dialogue (type text : string) (time duration : jsnum) : string :=
  let content := split comma text in
  "Dialogue: " ++
  (if String.eqb type "ssa" then "Marked=0" else item_string content 1) ++
  "," ++ toTimeString time true false ++
  "," ++ toTimeString (nadd time duration) true false ++
  "," ++ join "," (skipn 2 content).

(** The cue of a block, once the text of its payload is at hand.
    [with_content] is false in the distributed build, which has no
    [content] property and renders nothing. *)
Definition buildSubtitle (with_content : bool) (type text : string)
    (time duration : jsnum) : JSObject :=
  let subtitle :=
    ([("text", PStr text); ("time", PNum time); ("duration", PNum duration)]
     ++ (if with_content then [("content", PStr "")] else []))%list in
  if Set_has SSA_TYPES type then
    (* extract SSA/ASS keys *)
    let values := split comma text in
    (* ignore read-order, and skip layer if ssa *)
    let subtitle := assign_keys type values subtitle in
    let subtitle :=
      if with_content
      then obj_set subtitle "content" (PStr (dialogue type text time duration))
      else subtitle in
    obj_set subtitle "text" (PStr (join "," (skipn 8 values)))
  else if negb with_content then subtitle
  else if String.eqb type "utf8" then
    obj_set subtitle "content"
      (PStr (toTimeString time false true ++ " --> " ++
             toTimeString (nadd time duration) false true ++
             String "013" (String "010" EmptyString) ++ text ++
             String "013" (String "010" EmptyString)))
  else if String.eqb type "webvtt" then
    obj_set subtitle "content"
      (PStr (toTimeString time false false ++ " --> " ++
             toTimeString (nadd time duration) false false ++
             String "013" (String "010" EmptyString) ++ text ++
             String "013" (String "010" EmptyString)))
  else obj_set subtitle "content" (PStr text).

(** The BlockGroup branch. *)
Definition parseBlockGroup (with_content : bool) (chunk : EbmlTag) : M unit :=
  match find (fun c => id_eqb (id c) Block) (Children chunk) with
  | None => ret tt
  | Some block =>
      this <- get ;;
      if Map_has (subtitleTracks this) (VInt (track block)) then
        let blockDuration := getData chunk BlockDuration in
        match Map_get (subtitleTracks this) (VInt (track block)) with
        | None => throw (* not reached: the track is in the registry *)
        | Some track_ =>
            payload <- (if _compressed track_
                        then inflate (payload block)
                        else ret (payload block)) ;;
            let text := Buffer_toString payload in
            let time :=
              nmul (js_plus (value block) (_currentClusterTimecode this))
                   (timecodeScale this) in
            let duration := nmul (ToNumber blockDuration) (timecodeScale this) in
            emit (EvSubtitle
                    (buildSubtitle with_content (type track_) text time duration)
                    (track block))
        end
      else ret tt
  end.

(** [parseEbmlSubtitles(chunk)], the listener of the decoder's ['data']
    events.  [with_content] is true for the module source and false for
    the distributed build. *)
Definition parseEbmlSubtitles_build (with_content : bool) (chunk : EbmlTag)
    : M unit :=
  (* Segment Information *)
  when (id_eqb (id chunk) TimecodeScale)
       (set_timecodeScale (nquot (ToNumber (data chunk)) 1000000)) ;;
  (* Assumption: This is a Cluster `Timecode` *)
  when (id_eqb (id chunk) Timecode)
       (set_currentClusterTimecode (data chunk)) ;;
  when (id_eqb (id chunk) Tracks) (parseTracks chunk) ;;
  when (id_eqb (id chunk) BlockGroup) (parseBlockGroup with_content chunk) ;;
  (* Parse attached files, mainly to allow extracting subtitle font files. *)
  when (id_eqb (id chunk) AttachedFile)
       (emit (EvFile (getData chunk FileName) (getData chunk FileMimeType)
                     (getData chunk FileData))).

(** The listener of the module source. *)
Definition parseEbmlSubtitles : EbmlTag -> M unit :=
  parseEbmlSubtitles_build true.

(** [new SubtitleParserBase()]. *)
Definition SubtitleParserBase_new : SubtitleParserBase :=
  {| subtitleTracks := [];
     timecodeScale := ofZ 1;
     _currentClusterTimecode := VNull;
     decoder := [];
     unstable := false;
     ended := false |}.

(** The elements of a write, delivered one after the other to the
    listeners in their order of registration; a listener that throws
    ends the delivery. *)
Definition deliver (listeners : list (EbmlTag -> M unit)) (tags : list EbmlTag)
  : M unit :=
  forEach tags (fun tag => forEach listeners (fun l => l tag)).

(** [this.decoder.write(chunk)] with the given ['data'] listeners, called
    in their order of registration for each element delivered. *)
Definition decoder_write (listeners : list (EbmlTag -> M unit))
    (chunk : list byte) : M unit :=
  this <- get ;;
  let before := decoder this in
  set_decoder (before ++ [chunk])%list ;;
  deliver listeners (decoder_data before chunk) ;;
  if decoder_throws before chunk then throw else ret tt.

(** The listener of the distributed build. *)
Definition dist_parseEbmlSubtitles : EbmlTag -> M unit :=
  parseEbmlSubtitles_build false.

(** *** SubtitleParser *)

(** The second listener, registered by the constructor of
    [SubtitleParser]. *)
Definition stop_if_no_tracks (chunk : EbmlTag) : M unit :=
  if id_eqb (id chunk) Tracks then
    (* stop decoding if no subtitle tracks are present *)
    this <- get ;;
    if (Map_size (subtitleTracks this) =? 0)%nat then set_ended true
    else ret tt
  else ret tt.

Definition SubtitleParser_listeners : list (EbmlTag -> M unit) :=
  [dist_parseEbmlSubtitles; stop_if_no_tracks].

Definition SubtitleParser_new : SubtitleParserBase := SubtitleParserBase_new.

Definition SubtitleParser__write (chunk : list byte) : M unit :=
  decoder_write SubtitleParser_listeners chunk.

(** [parser.write(chunk)] of the stream library: after [end()] a write
    is refused and [_write] is not called. *)
Definition SubtitleParser_write (chunk : list byte) : M unit :=
  this <- get ;;
  if ended this then throw else SubtitleParser__write chunk.

(** *** SubtitleStream *)

(** [new SubtitleStream(prevInstance)]; [None] stands for an argument
    that is not an instance of [SubtitleParserBase].  (The constructor
    also asks the prior instance to end once it has drained, which
    concerns the prior instance only.) *)
Definition SubtitleStream_new (prevInstance : option SubtitleParserBase)
    : SubtitleParserBase :=
  match prevInstance with
  | Some prev =>
      (* copy previous metadata *)
      {| subtitleTracks := subtitleTracks prev;
         timecodeScale := timecodeScale prev;
         _currentClusterTimecode := _currentClusterTimecode SubtitleParserBase_new;
         decoder := decoder SubtitleParserBase_new;
         (* may not be at ebml tag offset *)
         unstable := true;
         ended := ended SubtitleParserBase_new |}
  | None => SubtitleParserBase_new
  end.

Definition decoderWrite (chunk : list byte) : M unit :=
  (* passthrough stream should allow chained streams to continue on error *)
  try_catch (decoder_write [dist_parseEbmlSubtitles] chunk).

(** [chunk[i] === b]. *)
Definition byte_at (chunk : list byte) (i : nat) (b : byte) : bool :=
  match nth_error chunk i with
  | Some x => Byte.eqb x b
  | None => false
  end.

(** [8 - Math.floor(Math.log2(b))] as an index offset: [None] when the
    byte is 0, where the logarithm is minus infinity and the index
    computed from it designates no element. *)
Definition size_length (b : byte) : option nat :=
  let n := Byte.to_N b in
  if (n =? 0)%N then None else Some (8 - N.to_nat (N.log2 n))%nat.

(** The test made at offset [i] of the scan. *)
Definition cluster_at (chunk : list byte) (i : nat) : bool :=
  (* cluster id *)
  byte_at chunk i x1f && byte_at chunk (i + 1) x43 &&
  byte_at chunk (i + 2) xb6 && byte_at chunk (i + 3) x75 &&
  (* length of cluster size tag *)
  match nth_error chunk (i + 4) with
  | Some sz =>
      match size_length sz with
      (* first tag in cluster is cluster timecode *)
      | Some len => byte_at chunk (i + 4 + len) xe7
      | None => false
      end
  | None => false
  end.

(** The loop [for (let i = 0; i < chunk.length - 12; i++)] up to its
    [break]: the first offset that passes the test. *)
Definition scan (chunk : list byte) : option nat :=
  find (cluster_at chunk) (seq 0 (List.length chunk - 12)).

Definition _ondata (chunk : list byte) : M unit :=
  this <- get ;;
  if unstable this then
    (* the ebml decoder expects to see a tag, so we won't use it until we
       find a cluster *)
    match scan chunk with
    | Some i =>
        (* okay this is probably a cluster *)
        set_unstable false ;;
        decoderWrite (skipn i chunk)
    | None => ret tt
    end
  else decoderWrite chunk.

(** *** Auxiliary definitions for the statements *)

(** A text without the separator. *)
Fixpoint no_comma (s : string) : bool :=
  match s with
  | EmptyString => true
  | String c s' => negb (Ascii.eqb c comma) && no_comma s'
  end.

(** The parts of the result of a method body. *)
Definition state_of {A} (r : completion A * SubtitleParserBase * list Event)
  : SubtitleParserBase := snd (fst r).
Definition events_of {A} (r : completion A * SubtitleParserBase * list Event)
  : list Event := snd r.
Definition completion_of {A} (r : completion A * SubtitleParserBase * list Event)
  : completion A := fst (fst r).

(** [this] with another registry. *)
Definition with_tracks (this : SubtitleParserBase) (m : TrackMap)
  : SubtitleParserBase :=
  mkParser m (timecodeScale this) (_currentClusterTimecode this)
           (decoder this) (unstable this) (ended this).

(** The text of a block's payload on a track: the payload itself, or its
    inflation on a compressed track ([None] when inflation throws). *)
Definition readable (tr : Track) (b : EbmlTag) : option (list byte) :=
  if _compressed tr then inflateSync (payload b) else Some (payload b).

(** The first key assigned by the loop. *)
Definition first_key (t : string) : nat :=
  if String.eqb t "ssa" then 2%nat else 1%nat.

(** What the listeners of the decoder never change: the chunks written
    to the decoder and the stability flag; and they never reset the end
    flag. *)
Definition stream_kept (a b : SubtitleParserBase) : Prop :=
  decoder b = decoder a /\ unstable b = unstable a /\
  (ended a = true -> ended b = true).

(** [this] after a chunk was handed to the decoder. *)
Definition with_chunk (this : SubtitleParserBase) (chunk : list byte)
  : SubtitleParserBase :=
  mkParser (subtitleTracks this) (timecodeScale this)
           (_currentClusterTimecode this) (decoder this ++ [chunk])%list
           (unstable this) (ended this).

(** [this] with another stability flag. *)
Definition with_unstable (this : SubtitleParserBase) (u : bool)
  : SubtitleParserBase :=
  mkParser (subtitleTracks this) (timecodeScale this)
           (_currentClusterTimecode this) (decoder this) u (ended this).

(** The record that the loop over the entries builds for an entry with
    codec identifier [codecID]. *)
Definition entry_track (entry : EbmlTag) (codecID : string) : Track :=
  {| number := getData entry TrackNumber;
     language := getData entry Language;
     type := toLowerCase (substring_from 7 codecID);
     name := if truthy (getData entry Name)
             then Some (getData entry Name) else None;
     header := if truthy (getData entry CodecPrivate)
               then Some (ToString (getData entry CodecPrivate)) else None;
     _compressed := find_compression entry |}.

(** The entries of a Tracks element that the loop visits. *)
Definition track_entries (chunk : EbmlTag) : list EbmlTag :=
  filter (fun c => id_eqb (id c) TrackEntry) (Children chunk).

(** The codec identifier of an entry can be tested with [startsWith]:
    it is a string, or missing or otherwise falsy. *)
Definition codec_is_text (entry : EbmlTag) : bool :=
  match js_or (getData entry CodecID) (VStr "") with
  | VStr _ => true
  | _ => false
  end.

(** *** Concrete inputs *)

(** Stand-ins for the external parts in concrete runs. *)
Definition no_number : string -> jsnum := fun _ => NaN.
Definition no_inflate : list byte -> option (list byte) := fun _ => None.
Definition silent_decoder : list (list byte) -> list byte -> list EbmlTag :=
  fun _ _ => [].
Definition never_throws : list (list byte) -> list byte -> bool :=
  fun _ _ => false.

Definition ex_track : Track :=
  {| number := VInt 3; language := VStr "eng"; type := "ass";
     name := None; header := None; _compressed := false |}.

(** A parser that knows track 3 and has seen a cluster timecode. *)
Definition ex_parser : SubtitleParserBase :=
  {| subtitleTracks := [(VInt 3, ex_track)];
     timecodeScale := ofZ 1;
     _currentClusterTimecode := VInt 107000;
     decoder := [];
     unstable := false;
     ended := false |}.

Definition ex_payload : list byte :=
  list_byte_of_string "0,1,Default,,0,0,0,,Hello, world".

Definition ex_block : EbmlTag := mkBlock 3 250 ex_payload.

Definition ex_blockgroup : EbmlTag :=
  master BlockGroup [ex_block; leaf BlockDuration (VInt 1970)].

(** A block of track 4, which [ex_parser] does not know. *)
Definition ex_block_unknown : EbmlTag := mkBlock 4 250 ex_payload.

Definition ex_blockgroup_unknown : EbmlTag :=
  master BlockGroup [ex_block_unknown; leaf BlockDuration (VInt 1970)].

Definition ex_entry (codec : string) : EbmlTag :=
  master TrackEntry
    [leaf TrackNumber (VInt 3); leaf TrackType (VInt 17);
     leaf CodecID (VStr codec)].

(** The codec test in the words of the specification: the identifier
    starts with "S_TEXT/", letters compared without regard to case. *)
Definition spec_codec_accepted (codec : string) : bool :=
  startsWith (toLowerCase codec) (toLowerCase "S_TEXT/").

(** A stream attached to a running one. *)
Definition ex_stream : SubtitleParserBase := SubtitleStream_new (Some ex_parser).

(** Two bytes of another element, then a cluster with an eight-byte size
    and its timecode. *)
Definition ex_chunk : list byte :=
  [x00; x00; x1f; x43; xb6; x75; x01; x00; x00; x00; x00; x00; x00; x00;
   xe7; x81; x00].

(** A chunk without the cluster signature. *)
Definition ex_chunk_none : list byte :=
  [x00; x01; x02; x03; x04; x05; x06; x07; x08; x09; x0a; x0b; x0c; x0d;
   x0e; x0f].

(** A cluster with a one-byte size and its timecode, as the six last
    bytes that a chunk can hold. *)
Definition ex_chunk_short : list byte := [x1f; x43; xb6; x75; x80; xe7].

(** Two cluster headers in one chunk. *)
Definition ex_chunk_two : list byte :=
  [x1f; x43; xb6; x75; x80; xe7; x1f; x43; xb6; x75; x80; xe7;
   x00; x00; x00; x00; x00; x00; x00; x00; x00; x00; x00; x00; x00].

(** A file without subtitle tracks: a Tracks element with a video track,
    then an attached font, delivered from one chunk. *)
Definition ex_tracks_video : EbmlTag :=
  master Tracks
    [master TrackEntry
       [leaf TrackNumber (VInt 1); leaf TrackType (VInt 1);
        leaf CodecID (VStr "V_MPEG4/ISO/AVC")]].

Definition ex_font : EbmlTag :=
  master AttachedFile
    [leaf FileName (VStr "Arial.ttf");
     leaf FileMimeType (VStr "application/x-truetype-font");
     leaf FileData (VBuf [x00; x01])].

Definition ex_decoder : list (list byte) -> list byte -> list EbmlTag :=
  fun _ _ => [ex_tracks_video; ex_font].

(** The one-shot parser when it has called [end()] during the write of a
    chunk. *)
Definition ex_parser_ended : SubtitleParserBase :=
  {| subtitleTracks := [];
     timecodeScale := ofZ 1;
     _currentClusterTimecode := VNull;
     decoder := [[x1a]];
     unstable := false;
     ended := true |}.

(** The base parser after a Tracks element with one subtitle entry of
    the given codec identifier. *)
Definition ex_after_tracks (codec : string) : SubtitleParserBase :=
  state_of (parseTracks (master Tracks [ex_entry codec]) SubtitleParserBase_new).

(** A compressed ASS track with a name and a script header. *)
Definition ex_entry_full : EbmlTag :=
  master TrackEntry
    [leaf TrackNumber (VInt 3); leaf TrackType (VInt 17);
     leaf CodecID (VStr "S_TEXT/ASS"); leaf Language (VStr "jpn");
     leaf Name (VStr "Signs");
     leaf CodecPrivate (VBuf (list_byte_of_string "[Script Info]"));
     master ContentEncodings
       [master ContentEncoding [master ContentCompression []]]].

(** A subtitle entry without a codec identifier, and a video entry. *)
Definition ex_entry_no_codec : EbmlTag :=
  master TrackEntry [leaf TrackNumber (VInt 5); leaf TrackType (VInt 17)].

Definition ex_entry_video : EbmlTag :=
  master TrackEntry
    [leaf TrackNumber (VInt 1); leaf TrackType (VInt 1);
     leaf CodecID (VStr "V_MPEG4/ISO/AVC")].

(** A plain-text track and a block on it. *)
Definition ex_track_utf8 : Track :=
  {| number := VInt 2; language := VStr "eng"; type := "utf8";
     name := None; header := None; _compressed := false |}.

(** A compressed track: with [no_inflate] its payloads cannot be read. *)
Definition ex_track_compressed : Track :=
  {| number := VInt 6; language := VUndefined; type := "ass";
     name := None; header := None; _compressed := true |}.

(** A parser before any cluster timecode, with the three tracks. *)
Definition ex_parser_fresh : SubtitleParserBase :=
  {| subtitleTracks :=
       [(VInt 3, ex_track); (VInt 2, ex_track_utf8); (VInt 6, ex_track_compressed)];
     timecodeScale := ofZ 1;
     _currentClusterTimecode := VNull;
     decoder := [];
     unstable := false;
     ended := false |}.

Definition ex_block_utf8 : EbmlTag :=
  mkBlock 2 250 (list_byte_of_string "This blade has a dark past.").

Definition ex_blockgroup_utf8 : EbmlTag :=
  master BlockGroup [ex_block_utf8; leaf BlockDuration (VInt 1970)].

Definition ex_block_compressed : EbmlTag := mkBlock 6 0 [x78; x9c].

Definition ex_blockgroup_compressed : EbmlTag :=
  master BlockGroup [ex_block_compressed].

(** A decoder that delivers a block of the compressed track and then a
    block of the plain-text track from every chunk. *)
Definition ex_decoder_blocks : list (list byte) -> list byte -> list EbmlTag :=
  fun _ _ => [ex_blockgroup_compressed; ex_blockgroup_utf8].

(** An inflation that succeeds, for concrete runs. *)
Definition ex_inflate : list byte -> option (list byte) :=
  fun _ => Some (list_byte_of_string "Hello").

Definition ex_track_compressed_utf8 : Track :=
  {| number := VInt 6; language := VUndefined; type := "utf8";
     name := None; header := None; _compressed := true |}.

Definition ex_parser_compressed_utf8 : SubtitleParserBase :=
  {| subtitleTracks := [(VInt 6, ex_track_compressed_utf8)];
     timecodeScale := ofZ 1;
     _currentClusterTimecode := VInt 0;
     decoder := [];
     unstable := false;
     ended := false |}.

(** A BlockGroup of track 3 without a BlockDuration child. *)
Definition ex_blockgroup_no_duration : EbmlTag := master BlockGroup [ex_block].

(** A Tracks element with a video track and the full subtitle track. *)
Definition ex_tracks_mixed : EbmlTag :=
  master Tracks [ex_entry_video; ex_entry_full].

(** The double nearest to 0.1, and the doubles that the products 3 * 0.1
    and 7 * 0.1 give: 0.30000000000000004 and 0.7000000000000001 in
    shortest decimal notation. *)
Definition double_tenth : Q := 3602879701896397 # 36028797018963968.
Definition double_three_tenths : Q := 1351079888211149 # 4503599627370496.
Definition double_seven_tenths : Q := 6305039478318695 # 9007199254740992.

(** A segment scale of a tenth of a millisecond per tick, a cluster
    timecode of 2 and blocks of track 3 at the ticks 1 and 3. *)
Definition ex_scale_tenth : EbmlTag := leaf TimecodeScale (VInt 100000).
Definition ex_timecode_two : EbmlTag := leaf Timecode (VInt 2).

Definition ex_block_one : EbmlTag := mkBlock 3 1 ex_payload.

Definition ex_blockgroup_one : EbmlTag :=
  master BlockGroup [ex_block_one; leaf BlockDuration (VInt 7)].

Definition ex_block_three : EbmlTag := mkBlock 3 3 ex_payload.

Definition ex_blockgroup_three : EbmlTag :=
  master BlockGroup [ex_block_three; leaf BlockDuration (VInt 7)].

(** A parser that knows track 3, after that scale and that cluster
    timecode. *)
Definition ex_parser_tenth : SubtitleParserBase :=
  {| subtitleTracks := [(VInt 3, ex_track)];
     timecodeScale := Num double_tenth;
     _currentClusterTimecode := VInt 2;
     decoder := [];
     unstable := false;
     ended := false |}.

(** The same after the scale and before any cluster timecode. *)
Definition ex_parser_tenth_fresh : SubtitleParserBase :=
  {| subtitleTracks := [(VInt 3, ex_track)];
     timecodeScale := Num double_tenth;
     _currentClusterTimecode := VNull;
     decoder := [];
     unstable := false;
     ended := false |}.

(** An inflation that gives an ASS event line. *)
Definition ex_inflate_ass : list byte -> option (list byte) :=
  fun _ => Some ex_payload.

(** ** Properties *)

(** *** Rounding *)

Lemma round_half_even_one (a : Z) : round_half_even a 1 = a.
Proof.
  unfold round_half_even. rewrite Z.div_1_r, Z.mod_1_r. reflexivity.
Qed.

Lemma Qred_inject_Z (z : Z) : Qred (inject_Z z) = inject_Z z.
Proof.
  unfold Qred, inject_Z.
  pose proof (Z.ggcd_gcd z 1) as Hg.
  pose proof (Z.ggcd_correct_divisors z 1) as Hd.
  destruct (Z.ggcd z 1) as [g [aa bb]]. simpl in *.
  rewrite Z.gcd_1_r in Hg. subst g. destruct Hd as [Ha Hb].
  rewrite Z.mul_1_l in Ha, Hb. subst. reflexivity.
Qed.

(** Rounding depends on the value only, not on the fraction that
    denotes it. *)
Lemma round64_Qeq (x y : Q) : x == y -> round64 x = round64 y.
Proof. intros H. unfold round64. now rewrite (Qred_complete x y H). Qed.

Lemma log2_ratio_one (a : positive) : log2_ratio a 1 = Z.log2 (Zpos a).
Proof.
  unfold log2_ratio. change (Z.log2 1) with 0%Z. rewrite Z.sub_0_r.
  pose proof (Z.log2_nonneg (Zpos a)) as Hn.
  destruct (Z.leb_spec 0 (Z.log2 (Zpos a))) as [_|]; [|lia].
  pose proof (Z.log2_spec (Zpos a) eq_refl) as [Hl _].
  destruct (Z.leb_spec (1 * 2 ^ Z.log2 (Zpos a)) (Zpos a)); [reflexivity | lia].
Qed.

(** A positive integer below 2^53 is a double. *)
Lemma round64_pos_integer (a : positive) :
  (Zpos a < 2 ^ 53)%Z -> round64_pos a 1 = Num (inject_Z (Zpos a)).
Proof.
  intros Ha. unfold round64_pos. rewrite log2_ratio_one.
  assert (HL : (0 <= Z.log2 (Zpos a) <= 52)%Z).
  { split; [apply Z.log2_nonneg|].
    assert (Z.log2 (Zpos a) < 53)%Z; [|lia].
    apply Z.log2_lt_pow2; [reflexivity | exact Ha]. }
  set (L := Z.log2 (Zpos a)) in *.
  replace (Z.max (L - 52) (-1074)) with (L - 52)%Z by lia.
  destruct (Z.leb_spec 0 (L - 52)) as [Hp|Hp].
  - replace (L - 52)%Z with 0%Z by lia.
    change (2 ^ 0)%Z with 1%Z. rewrite !Z.mul_1_r, round_half_even_one.
    destruct (Z.leb_spec (2 ^ 1024) (Zpos a)) as [Hbig|]; [|reflexivity].
    exfalso. assert (2 ^ 53 < 2 ^ 1024)%Z by (apply Z.pow_lt_mono_r; lia). lia.
  - cbv zeta. rewrite round_half_even_one.
    assert (Hpow : (0 < 2 ^ (- (L - 52)))%Z) by (apply Z.pow_pos_nonneg; lia).
    rewrite <- (Qred_inject_Z (Zpos a)). f_equal. apply Qred_complete.
    unfold Qeq, inject_Z. cbn [Qnum Qden].
    rewrite Z2Pos.id by exact Hpow. lia.
Qed.

(** An integer below 2^53 in magnitude is a double. *)
Lemma round64_integer (z : Z) :
  (Z.abs z < 2 ^ 53)%Z -> round64 (inject_Z z) = ofZ z.
Proof.
  intros Hz. unfold round64. rewrite Qred_inject_Z. unfold ofZ.
  destruct z as [|a|a]; simpl Qnum; simpl Qden; cbv iota.
  - reflexivity.
  - apply round64_pos_integer. exact Hz.
  - rewrite round64_pos_integer by exact Hz. reflexivity.
Qed.

(** Integers add exactly as long as the sum stays below 2^53. *)
Lemma nadd_integers (a b : Z) :
  (Z.abs (a + b) < 2 ^ 53)%Z -> nadd (ofZ a) (ofZ b) = ofZ (a + b).
Proof.
  intros H. unfold nadd, ofZ.
  rewrite (round64_Qeq _ (inject_Z (a + b))).
  - now apply round64_integer.
  - now rewrite inject_Z_plus.
Qed.

(** A product by 1 is exact on integers below 2^53. *)
Lemma nmul_one (a : Z) :
  (Z.abs a < 2 ^ 53)%Z -> nmul (ofZ a) (ofZ 1) = ofZ a.
Proof.
  intros H. unfold nmul, ofZ.
  rewrite (round64_Qeq _ (inject_Z a)).
  - now apply round64_integer.
  - change (inject_Z 1) with 1%Q. apply Qmult_1_r.
Qed.

(** *** Objects and the registry *)

Lemma obj_get_set_same (o : JSObject) (k : string) (v : propval) :
  obj_get (obj_set o k v) k = Some v.
Proof.
  induction o as [|[k' v'] o IH]; simpl.
  - now rewrite String.eqb_refl.
  - destruct (String.eqb k' k) eqn:E; simpl; rewrite E; auto.
Qed.

Lemma obj_get_set_other (o : JSObject) (k k' : string) (v : propval) :
  String.eqb k k' = false ->
  obj_get (obj_set o k v) k' = obj_get o k'.
Proof.
  intros Hk. induction o as [|[k0 v0] o IH]; simpl.
  - now rewrite Hk.
  - destruct (String.eqb k0 k) eqn:E; simpl.
    + apply String.eqb_eq in E. subst k0. now rewrite Hk.
    + now rewrite IH.
Qed.

Lemma Map_has_get (m : TrackMap) (k : jsval) :
  Map_has m k = true <-> exists t, Map_get m k = Some t.
Proof.
  unfold Map_has. destruct (Map_get m k) as [t|].
  - split; eauto.
  - split; [discriminate | intros [t Ht]; discriminate].
Qed.

(** *** The monad *)

Lemma bind_ret_l {A B} (a : A) (k : A -> M B) (this : SubtitleParserBase) :
  bind (ret a) k this = k a this.
Proof. unfold bind, ret. now destruct (k a this) as [[r s] ev]. Qed.

Lemma bind_ret_r (m : M unit) (this : SubtitleParserBase) :
  bind m (fun _ => ret tt) this = m this.
Proof.
  unfold bind, ret. destruct (m this) as [[[[]|] s] ev]; auto.
  now rewrite app_nil_r.
Qed.

Lemma id_eqb_refl (i : EbmlTagId) : id_eqb i i = true.
Proof. unfold id_eqb. now destruct (EbmlTagId_eq_dec i i). Qed.

Lemma id_eqb_eq (i j : EbmlTagId) : id_eqb i j = true <-> i = j.
Proof.
  unfold id_eqb. destruct (EbmlTagId_eq_dec i j); split; auto; discriminate.
Qed.

(** On a BlockGroup element the listener is its BlockGroup branch. *)
Lemma parse_BlockGroup (wc : bool) (chunk : EbmlTag) (this : SubtitleParserBase) :
  id chunk = BlockGroup ->
  parseEbmlSubtitles_build wc chunk this = parseBlockGroup wc chunk this.
Proof.
  intros Hid. unfold parseEbmlSubtitles_build. rewrite Hid. simpl.
  unfold when. rewrite !bind_ret_l. now rewrite bind_ret_r.
Qed.

(** A block on a registered track whose payload can be read yields one
    cue. *)
Lemma parseBlockGroup_emits (wc : bool) (chunk b : EbmlTag)
    (this : SubtitleParserBase) (tr : Track) (p : list byte) :
  find (fun c => id_eqb (id c) Block) (Children chunk) = Some b ->
  Map_get (subtitleTracks this) (VInt (track b)) = Some tr ->
  (if _compressed tr then inflateSync (payload b) else Some (payload b)) = Some p ->
  parseBlockGroup wc chunk this =
    (Normal tt, this,
     [EvSubtitle
        (buildSubtitle wc (type tr) (Buffer_toString p)
           (nmul (js_plus (value b) (_currentClusterTimecode this)) (timecodeScale this))
           (nmul (ToNumber (getData chunk BlockDuration)) (timecodeScale this)))
        (track b)]).
Proof.
  intros Hb Hget Hp. unfold parseBlockGroup. rewrite Hb.
  unfold bind at 1. unfold get at 1.
  unfold Map_has. rewrite Hget.
  unfold inflate. destruct (_compressed tr).
  - rewrite Hp. now rewrite bind_ret_l.
  - injection Hp as <-. now rewrite bind_ret_l.
Qed.

(** *** Splitting and joining *)

Lemma append_assoc (a b c : string) : (a ++ b) ++ c = a ++ (b ++ c).
Proof. induction a; simpl; congruence. Qed.

Lemma append_nil_r (a : string) : a ++ "" = a.
Proof. induction a; simpl; congruence. Qed.

Lemma split_nonempty (s : string) : split comma s <> [].
Proof.
  destruct s as [|c s]; simpl; [discriminate|].
  destruct (Ascii.eqb c comma); [discriminate|].
  destruct (split comma s); discriminate.
Qed.

(** Joining the fields of a split gives the text back. *)
Lemma join_split (s : string) : join "," (split comma s) = s.
Proof.
  induction s as [|c s IH]; simpl; auto.
  destruct (Ascii.eqb c comma) eqn:E.
  - apply Ascii.eqb_eq in E. subst c.
    pose proof (split_nonempty s) as Hne.
    destruct (split comma s) as [|h t]; [easy|].
    simpl. now rewrite <- IH.
  - pose proof (split_nonempty s) as Hne.
    destruct (split comma s) as [|h t]; [easy|].
    rewrite <- IH. destruct t; reflexivity.
Qed.

Lemma split_field (f s : string) :
  no_comma f = true ->
  split comma (f ++ "," ++ s) = f :: split comma s.
Proof.
  induction f as [|c f IH]; intros H; [reflexivity|].
  simpl in H. apply andb_prop in H as [Hc Hf].
  apply negb_true_iff in Hc.
  change (split comma (String c f ++ "," ++ s))
    with (if Ascii.eqb c comma then EmptyString :: split comma (f ++ "," ++ s)
          else match split comma (f ++ "," ++ s) with
               | h :: t => String c h :: t
               | [] => [String c EmptyString]
               end).
  rewrite Hc, (IH Hf). reflexivity.
Qed.

Lemma join_cons (f : string) (l : list string) :
  l <> [] -> join "," (f :: l) = f ++ "," ++ join "," l.
Proof. destruct l; [easy | reflexivity]. Qed.

(** Fields without separators in front of a text are split off one by
    one; the text keeps its own separators. *)
Lemma split_fields (fields : list string) (t : string) :
  forallb no_comma fields = true ->
  split comma (join "," (fields ++ [t])) = (fields ++ split comma t)%list.
Proof.
  induction fields as [|f fields IH]; simpl app; intros H.
  - reflexivity.
  - simpl in H. apply andb_prop in H as [Hf Hfs].
    rewrite join_cons by (destruct fields; discriminate).
    rewrite (split_field _ _ Hf), (IH Hfs). reflexivity.
Qed.

Lemma skipn_app_length {A} (l r : list A) :
  skipn (List.length l) (l ++ r)%list = r.
Proof. induction l; simpl; auto. Qed.

(** The fields of a text from some index on, rejoined, are the end of
    the text. *)
Lemma join_skipn_suffix (n : nat) (l : list string) :
  exists pre, join "," l = pre ++ join "," (skipn n l).
Proof.
  revert l. induction n as [|n IH]; intros l.
  - exists "". reflexivity.
  - destruct l as [|x l]; [exists ""; reflexivity|].
    destruct (IH l) as [pre Hpre]. simpl skipn.
    destruct l as [|y l].
    + exists x. rewrite skipn_nil. simpl. now rewrite append_nil_r.
    + exists (x ++ "," ++ pre).
      change (join "," (x :: y :: l)) with (x ++ "," ++ join "," (y :: l)).
      rewrite Hpre. now rewrite !append_assoc.
Qed.

Lemma Set_has_SSA (t : string) :
  Set_has SSA_TYPES t = true <-> t = "ssa" \/ t = "ass".
Proof.
  unfold Set_has, SSA_TYPES. simpl. rewrite !orb_true_iff, !String.eqb_eq.
  intuition discriminate.
Qed.

(** The loop over the keys leaves the four properties of the object
    literal alone. *)
Lemma assign_keys_other (t : string) (values : list string) (o : JSObject)
    (k : string) :
  existsb (String.eqb k) SSA_KEYS = false ->
  obj_get (assign_keys t values o) k = obj_get o k.
Proof.
  intros Hk. unfold SSA_KEYS in Hk. simpl in Hk.
  repeat (apply orb_false_elim in Hk as [?E Hk]).
  unfold assign_keys.
  destruct (String.eqb t "ssa"); simpl;
    rewrite !obj_get_set_other by (now rewrite String.eqb_sym); reflexivity.
Qed.

Lemma buildSubtitle_time (wc : bool) (t text : string) (time duration : jsnum) :
  obj_get (buildSubtitle wc t text time duration) "time" = Some (PNum time) /\
  obj_get (buildSubtitle wc t text time duration) "duration"
    = Some (PNum duration).
Proof.
  unfold buildSubtitle.
  destruct (Set_has SSA_TYPES t).
  - destruct wc; simpl;
      rewrite ?obj_get_set_other by reflexivity;
      rewrite !assign_keys_other by reflexivity; split; reflexivity.
  - destruct wc; simpl; [|split; reflexivity].
    destruct (String.eqb t "utf8"); [split; reflexivity|].
    destruct (String.eqb t "webvtt"); split; reflexivity.
Qed.

(** *** What the listener changes *)

Lemma with_tracks_same (this : SubtitleParserBase) :
  with_tracks this (subtitleTracks this) = this.
Proof. now destruct this. Qed.

Lemma with_tracks_twice (this : SubtitleParserBase) (m m' : TrackMap) :
  with_tracks (with_tracks this m) m' = with_tracks this m'.
Proof. reflexivity. Qed.

(** Registering an entry emits nothing and touches the registry only. *)
Lemma registerEntry_frame (entry : EbmlTag) (this : SubtitleParserBase) :
  exists r m, registerEntry entry this = (r, with_tracks this m, []).
Proof.
  unfold registerEntry.
  destruct (negb (strict_eq (getData entry TrackType) (VInt 17))).
  - exists (Normal tt), (subtitleTracks this). now rewrite with_tracks_same.
  - destruct (js_or (getData entry CodecID) (VStr "")) as [| |z|codecID|bf];
      try (exists Thrown, (subtitleTracks this); now rewrite with_tracks_same).
    destruct (startsWith codecID "S_TEXT").
    + eexists (Normal tt), _. reflexivity.
    + exists (Normal tt), (subtitleTracks this). now rewrite with_tracks_same.
Qed.

Lemma forEach_registerEntry_frame (l : list EbmlTag) (this : SubtitleParserBase) :
  exists r m, forEach l registerEntry this = (r, with_tracks this m, []).
Proof.
  revert this. induction l as [|e l IH]; intros this.
  - exists (Normal tt), (subtitleTracks this). now rewrite with_tracks_same.
  - simpl. unfold bind.
    destruct (registerEntry_frame e this) as (r & m & ->).
    destruct r as [[]|].
    + destruct (IH (with_tracks this m)) as (r' & m' & ->).
      exists r', m'. now rewrite with_tracks_twice.
    + now exists Thrown, m.
Qed.

(** The Tracks branch touches the registry only and emits at most the
    track list. *)
Lemma parseTracks_frame (chunk : EbmlTag) (this : SubtitleParserBase) :
  exists r m ev,
    parseTracks chunk this = (r, with_tracks this m, ev) /\
    (ev = [] \/ ev = [EvTracks (Map_values m)]).
Proof.
  unfold parseTracks. unfold bind at 1.
  destruct (forEach_registerEntry_frame
              (filter (fun c => id_eqb (id c) TrackEntry) (Children chunk)) this)
    as (r & m & ->).
  destruct r as [[]|].
  - exists (Normal tt), m, [EvTracks (Map_values m)]. split; [reflexivity | now right].
  - exists Thrown, m, []. split; [reflexivity | now left].
Qed.

(** The BlockGroup branch leaves [this] as it is. *)
Lemma parseBlockGroup_frame (wc : bool) (chunk : EbmlTag)
    (this : SubtitleParserBase) :
  exists r ev, parseBlockGroup wc chunk this = (r, this, ev).
Proof.
  unfold parseBlockGroup.
  destruct (find (fun c => id_eqb (id c) Block) (Children chunk)) as [b|];
    [|now exists (Normal tt), []].
  unfold bind at 1, get at 1.
  destruct (Map_has (subtitleTracks this) (VInt (track b)));
    [|now exists (Normal tt), []].
  destruct (Map_get (subtitleTracks this) (VInt (track b))) as [tr|];
    [|now exists Thrown, []].
  unfold inflate.
  destruct (_compressed tr); [destruct (inflateSync (payload b))|];
    simpl; eauto.
Qed.

(** The listener of either build leaves the decoder, the stability flag
    and the end flag alone, and sets the cluster timecode on a Timecode
    element only. *)
Lemma parse_frame (wc : bool) (chunk : EbmlTag) (this : SubtitleParserBase) :
  let this' := state_of (parseEbmlSubtitles_build wc chunk this) in
  decoder this' = decoder this /\
  unstable this' = unstable this /\
  ended this' = ended this /\
  _currentClusterTimecode this'
    = (if id_eqb (id chunk) Timecode then data chunk
       else _currentClusterTimecode this).
Proof.
  unfold parseEbmlSubtitles_build, state_of.
  destruct (id chunk) eqn:Hid; simpl; unfold when;
    rewrite ?bind_ret_l, ?bind_ret_r; try (simpl; now auto).
  - (* Tracks *)
    destruct (parseTracks_frame chunk this) as (r & m & ev & -> & _).
    simpl. auto.
  - (* BlockGroup *)
    destruct (parseBlockGroup_frame wc chunk this) as (r & ev & ->).
    simpl. auto.
Qed.

(** No element makes the listener emit a cue for a track that was not
    in the registry. *)
Lemma parse_cues_registered (wc : bool) (chunk : EbmlTag)
    (this : SubtitleParserBase) :
  forallb (fun e => match e with
                    | EvSubtitle _ n => Map_has (subtitleTracks this) (VInt n)
                    | _ => true
                    end)
          (events_of (parseEbmlSubtitles_build wc chunk this)) = true.
Proof.
  unfold parseEbmlSubtitles_build, events_of.
  destruct (id chunk) eqn:Hid; simpl; unfold when;
    rewrite ?bind_ret_l, ?bind_ret_r; try reflexivity.
  - (* Tracks *)
    destruct (parseTracks_frame chunk this) as (r & m & ev & -> & [-> | ->]);
      reflexivity.
  - (* BlockGroup *)
    unfold parseBlockGroup.
    destruct (find (fun c => id_eqb (id c) Block) (Children chunk)) as [b|];
      [|reflexivity].
    unfold bind at 1, get at 1.
    destruct (Map_has (subtitleTracks this) (VInt (track b))) eqn:Hhas;
      [|reflexivity].
    destruct (Map_get (subtitleTracks this) (VInt (track b))) as [tr|];
      [|reflexivity].
    unfold inflate.
    destruct (_compressed tr); [destruct (inflateSync (payload b))|];
      simpl; rewrite ?Hhas; reflexivity.
Qed.

(** *** Cues *)

(** On a BlockGroup whose block is on a registered track and whose
    payload can be read, the listener of either build completes, leaves
    the parser as it is and emits exactly one cue. *)
Lemma block_emits_cue (wc : bool) (chunk b : EbmlTag)
    (this : SubtitleParserBase) (tr : Track) (p : list byte) :
  id chunk = BlockGroup ->
  find (fun c => id_eqb (id c) Block) (Children chunk) = Some b ->
  Map_get (subtitleTracks this) (VInt (track b)) = Some tr ->
  readable tr b = Some p ->
  parseEbmlSubtitles_build wc chunk this =
    (Normal tt, this,
     [EvSubtitle
        (buildSubtitle wc (type tr) (Buffer_toString p)
           (nmul (js_plus (value b) (_currentClusterTimecode this)) (timecodeScale this))
           (nmul (ToNumber (getData chunk BlockDuration)) (timecodeScale this)))
        (track b)]).
Proof.
  intros Hid Hb Hget Hp. rewrite parse_BlockGroup by assumption.
  now apply parseBlockGroup_emits.
Qed.

(** C4: for a block emitted as a cue, with the cluster timecode set to
    an integer, the cue's time is (relative timecode + cluster base) *
    scale and its duration is the data of the BlockDuration child *
    scale, as the operators of the language compute them on doubles and
    with no rounding step of the code's own.  With a finite scale and a
    sum of the two timecodes below 2^53 the time is the double nearest
    to the exact product of the sum and the scale, and the duration is
    the double nearest to the exact product of the block duration and
    the scale; with the scale 1 the time is the sum itself.  Without a
    BlockDuration child the cue is still emitted and its duration is
    NaN.  This holds for the listener of the module source and of the
    distributed build. *)
Theorem cue_time_and_duration (wc : bool) (chunk b : EbmlTag)
    (this : SubtitleParserBase) (tr : Track) (p : list byte) (base : Z) :
  id chunk = BlockGroup ->
  find (fun c => id_eqb (id c) Block) (Children chunk) = Some b ->
  Map_get (subtitleTracks this) (VInt (track b)) = Some tr ->
  readable tr b = Some p ->
  _currentClusterTimecode this = VInt base ->
  exists cue,
    parseEbmlSubtitles_build wc chunk this
      = (Normal tt, this, [EvSubtitle cue (track b)]) /\
    obj_get cue "time"
      = Some (PNum (nmul (nadd (ofZ (value b)) (ofZ base)) (timecodeScale this))) /\
    (forall s, timecodeScale this = Num s ->
       (Z.abs (value b + base) < 2 ^ 53)%Z ->
       obj_get cue "time"
         = Some (PNum (round64 (inject_Z (value b + base) * s)))) /\
    (timecodeScale this = ofZ 1 ->
       (Z.abs (value b + base) < 2 ^ 53)%Z ->
       obj_get cue "time" = Some (PNum (ofZ (value b + base)))) /\
    (forall d, getData chunk BlockDuration = VInt d ->
       obj_get cue "duration" = Some (PNum (nmul (ofZ d) (timecodeScale this)))) /\
    (forall d s, getData chunk BlockDuration = VInt d ->
       timecodeScale this = Num s ->
       obj_get cue "duration" = Some (PNum (round64 (inject_Z d * s)))) /\
    (find (fun c => id_eqb (id c) BlockDuration) (Children chunk) = None ->
       obj_get cue "duration" = Some (PNum NaN)).
Proof.
  intros Hid Hb Hget Hp Hbase. eexists. split.
  - apply block_emits_cue; eassumption.
  - rewrite Hbase.
    destruct (buildSubtitle_time wc (type tr) (Buffer_toString p)
      (nmul (js_plus (value b) (VInt base)) (timecodeScale this))
      (nmul (ToNumber (getData chunk BlockDuration)) (timecodeScale this)))
      as [Ht Hd].
    split; [exact Ht|]. split; [|split; [|split; [|split]]].
    + intros s Hs Hlt. rewrite Ht, Hs. cbn [js_plus].
      rewrite nadd_integers by exact Hlt. reflexivity.
    + intros Hs Hlt. rewrite Ht, Hs. cbn [js_plus].
      rewrite nadd_integers by exact Hlt. now rewrite nmul_one.
    + intros d Hdur. rewrite Hd, Hdur. reflexivity.
    + intros d s Hdur Hs. rewrite Hd, Hdur, Hs. reflexivity.
    + intros Hnone. rewrite Hd. unfold getData. rewrite Hnone. reflexivity.
Qed.

(** C7: a BlockGroup whose block is on a track that is not in the
    registry makes the listener (of either build) emit nothing and leave
    the parser, hence the registry and the timecode context, as it is;
    and whatever element is processed, every cue emitted is for a track
    number that was in the registry. *)
Theorem unregistered_track_dropped (wc : bool) (chunk b : EbmlTag)
    (this : SubtitleParserBase) :
  id chunk = BlockGroup ->
  find (fun c => id_eqb (id c) Block) (Children chunk) = Some b ->
  Map_has (subtitleTracks this) (VInt (track b)) = false ->
  parseEbmlSubtitles_build wc chunk this = (Normal tt, this, []) /\
  (forall (c : EbmlTag) (st : SubtitleParserBase) (cue : JSObject) (n : Z),
     In (EvSubtitle cue n) (events_of (parseEbmlSubtitles_build wc c st)) ->
     Map_has (subtitleTracks st) (VInt n) = true).
Proof.
  intros Hid Hb Hhas. split.
  - rewrite parse_BlockGroup by assumption.
    unfold parseBlockGroup. rewrite Hb.
    unfold bind at 1, get at 1. now rewrite Hhas.
  - intros c st cue n Hin.
    pose proof (parse_cues_registered wc c st) as Hall.
    rewrite forallb_forall in Hall. exact (Hall _ Hin).
Qed.

(** C1: for a block on a registered track of type ssa or ass, the cue
    emitted (by either build) has, for every index from 2 (ssa) or 1
    (ass) through 7, the property named by the key list at that index
    set to the comma-split field at that index; the keys before are not
    set; the cue's text is the fields from index 8 on rejoined with
    commas, so that a dialogue text after eight comma-free fields is kept
    whole with its own commas; on "0,1,Default,,0,0,0,,Hello, world" with
    type ass the style is "Default" and the text "Hello, world". *)
Theorem ssa_fields_extracted (wc : bool) (chunk b : EbmlTag)
    (this : SubtitleParserBase) (tr : Track) (p : list byte) :
  id chunk = BlockGroup ->
  find (fun c => id_eqb (id c) Block) (Children chunk) = Some b ->
  Map_get (subtitleTracks this) (VInt (track b)) = Some tr ->
  readable tr b = Some p ->
  Set_has SSA_TYPES (type tr) = true ->
  let text := Buffer_toString p in
  let values := split comma text in
  exists cue,
    parseEbmlSubtitles_build wc chunk this
      = (Normal tt, this, [EvSubtitle cue (track b)]) /\
    (forall i, (first_key (type tr) <= i <= 7)%nat ->
       obj_get cue (nth i SSA_KEYS "") = Some (item values i)) /\
    (forall i, (i < first_key (type tr))%nat ->
       obj_get cue (nth i SSA_KEYS "") = None) /\
    obj_get cue "text" = Some (PStr (join "," (skipn 8 values))) /\
    (forall (fields : list string) (dialogue_text : string),
       List.length fields = 8%nat ->
       forallb no_comma fields = true ->
       text = join "," (fields ++ [dialogue_text]) ->
       obj_get cue "text" = Some (PStr dialogue_text)) /\
    (type tr = "ass" ->
     text = "0,1,Default,,0,0,0,,Hello, world" ->
     obj_get cue "style" = Some (PStr "Default") /\
     obj_get cue "text" = Some (PStr "Hello, world")).
Proof.
  intros Hid Hb Hget Hp Hssa text values. eexists. split.
  - apply block_emits_cue; eassumption.
  - fold text. fold values.
    set (time := nmul _ _). set (duration := nmul _ (timecodeScale this)).
    assert (Htext : obj_get (buildSubtitle wc (type tr) text time duration) "text"
                    = Some (PStr (join "," (skipn 8 values)))).
    { unfold buildSubtitle. rewrite Hssa. apply obj_get_set_same. }
    assert (Hkeys : forall i, (first_key (type tr) <= i <= 7)%nat ->
              obj_get (buildSubtitle wc (type tr) text time duration)
                      (nth i SSA_KEYS "") = Some (item values i)).
    { intros i Hi. unfold buildSubtitle. rewrite Hssa. fold values.
      apply Set_has_SSA in Hssa. unfold first_key in Hi.
      destruct Hssa as [E | E]; rewrite E in *; simpl in Hi;
        do 8 (destruct i as [|i]; [try lia; destruct wc; reflexivity|]); lia. }
    split; [exact Hkeys|]. split; [|split; [exact Htext|split]].
    + intros i Hi. unfold buildSubtitle. rewrite Hssa. fold values.
      apply Set_has_SSA in Hssa. unfold first_key in Hi.
      destruct Hssa as [E | E]; rewrite E in *; simpl in Hi;
        do 2 (destruct i as [|i]; [try lia; destruct wc; reflexivity|]); lia.
    + intros fields dialogue_text Hlen Hnc Heq. rewrite Htext.
      unfold values. rewrite Heq, split_fields by assumption.
      rewrite <- Hlen, skipn_app_length, join_split. reflexivity.
    + intros Hass Hex. split.
      * change "style" with (nth 2 SSA_KEYS "").
        rewrite (Hkeys 2%nat).
        -- unfold values. rewrite Hex. reflexivity.
        -- unfold first_key. rewrite Hass. simpl. lia.
      * rewrite Htext. unfold values. rewrite Hex. reflexivity.
Qed.

(** C2: for a block on a registered track of type ssa or ass, the
    content of the cue emitted by the module source is "Dialogue: ", then
    "Marked=0" for ssa or the comma-split field at index 1 for ass (the
    word "undefined" when the text has no such field), then the ASS
    renderings of the time and of time + duration, then the fields from
    index 2 on rejoined with commas, all separated by commas; that tail is
    the end of the payload text, byte for byte. *)
Theorem dialogue_line_content (chunk b : EbmlTag)
    (this : SubtitleParserBase) (tr : Track) (p : list byte) :
  id chunk = BlockGroup ->
  find (fun c => id_eqb (id c) Block) (Children chunk) = Some b ->
  Map_get (subtitleTracks this) (VInt (track b)) = Some tr ->
  readable tr b = Some p ->
  Set_has SSA_TYPES (type tr) = true ->
  let text := Buffer_toString p in
  let values := split comma text in
  let time :=
    nmul (js_plus (value b) (_currentClusterTimecode this)) (timecodeScale this) in
  let duration :=
    nmul (ToNumber (getData chunk BlockDuration)) (timecodeScale this) in
  let marked :=
    if String.eqb (type tr) "ssa" then "Marked=0" else item_string values 1 in
  let tail := join "," (skipn 2 values) in
  exists cue,
    parseEbmlSubtitles chunk this
      = (Normal tt, this, [EvSubtitle cue (track b)]) /\
    obj_get cue "content"
      = Some (PStr ("Dialogue: " ++ marked ++ "," ++
                    toTimeString time true false ++ "," ++
                    toTimeString (nadd time duration) true false ++ "," ++
                    tail)) /\
    (forall field, nth_error values 1 = Some field -> type tr = "ass" ->
       marked = field) /\
    (exists before, text = before ++ tail).
Proof.
  intros Hid Hb Hget Hp Hssa text values time duration marked tail.
  eexists. split; [|split; [|split]].
  - apply block_emits_cue; eassumption.
  - fold text time duration. unfold buildSubtitle. rewrite Hssa.
    rewrite obj_get_set_other by reflexivity.
    rewrite obj_get_set_same. reflexivity.
  - intros field Hf Hass. unfold marked, item_string. now rewrite Hass, Hf.
  - destruct (join_skipn_suffix 2 (split comma text)) as [before Hbefore].
    exists before. unfold tail, values. rewrite <- Hbefore.
    symmetry. apply join_split.
Qed.

(** *** The track registry *)

(** C5, as the code has it: an entry with track type 0x11 and a codec
    identifier [s] is registered iff [s] starts with the six characters
    "S_TEXT", compared as they are (no case folding; the seventh
    character is not looked at); the type recorded is [s] from index 7 on,
    lowercased, so that "S_TEXT/ASS" gives "ass", "S_TEXT/WEBVTT" gives
    "webvtt" and "S_TEXT/UTF8" gives "utf8", whatever the case of the
    letters after the prefix. *)
Theorem track_type_from_codec (entry : EbmlTag) (this : SubtitleParserBase)
    (s : string) :
  getData entry TrackType = VInt 17 ->
  getData entry CodecID = VStr s ->
  exists this',
    registerEntry entry this = (Normal tt, this', []) /\
    (startsWith s "S_TEXT" = true ->
       exists tr,
         this' = with_tracks this
                   (Map_set (subtitleTracks this) (getData entry TrackNumber) tr) /\
         number tr = getData entry TrackNumber /\
         type tr = toLowerCase (substring_from 7 s)) /\
    (startsWith s "S_TEXT" = false -> this' = this) /\
    (forall suffix,
       toLowerCase (substring_from 7 ("S_TEXT/" ++ suffix)) = toLowerCase suffix) /\
    toLowerCase (substring_from 7 "S_TEXT/ASS") = "ass" /\
    toLowerCase (substring_from 7 "S_TEXT/WEBVTT") = "webvtt" /\
    toLowerCase (substring_from 7 "S_TEXT/UTF8") = "utf8" /\
    toLowerCase (substring_from 7 "S_TEXT/Ass") = "ass".
Proof.
  intros Hty Hcodec. unfold registerEntry. rewrite Hty, Hcodec.
  assert (Hor : js_or (VStr s) (VStr "") = VStr s).
  { unfold js_or. simpl. destruct (String.eqb_spec s ""); simpl; congruence. }
  simpl negb. cbv iota. rewrite Hor.
  destruct (startsWith s "S_TEXT") eqn:Hpre.
  - eexists. split; [reflexivity|]. split; [|split; [discriminate|]].
    + intros _. eexists. split; [reflexivity|]. split; reflexivity.
    + repeat split; reflexivity.
  - exists this. split; [reflexivity|]. split; [discriminate|].
    repeat split; reflexivity.
Qed.

(** *** The byte stream in front of the decoder *)

Lemma stream_kept_refl (a : SubtitleParserBase) : stream_kept a a.
Proof. unfold stream_kept. auto. Qed.

Lemma stream_kept_trans (a b c : SubtitleParserBase) :
  stream_kept a b -> stream_kept b c -> stream_kept a c.
Proof.
  unfold stream_kept. intros (H1 & H2 & H3) (H4 & H5 & H6).
  repeat split; try congruence. auto.
Qed.

Lemma forEach_kept {A} (l : list A) (body : A -> M unit) :
  (forall x st, stream_kept st (state_of (body x st))) ->
  forall st, stream_kept st (state_of (forEach l body st)).
Proof.
  intros Hbody. induction l as [|x l IH]; intros st.
  - apply stream_kept_refl.
  - simpl. unfold bind. specialize (Hbody x st).
    destruct (body x st) as [[[[]|] st1] ev1]; unfold state_of in *; simpl in *.
    + specialize (IH st1).
      destruct (forEach l body st1) as [[r st2] ev2]. simpl in *.
      eapply stream_kept_trans; eassumption.
    + exact Hbody.
Qed.

Lemma parse_kept (wc : bool) (c : EbmlTag) (st : SubtitleParserBase) :
  stream_kept st (state_of (parseEbmlSubtitles_build wc c st)).
Proof.
  destruct (parse_frame wc c st) as (H1 & H2 & H3 & _).
  unfold stream_kept. repeat split; auto. intros H. now rewrite H3.
Qed.

Lemma stop_if_no_tracks_kept (c : EbmlTag) (st : SubtitleParserBase) :
  stream_kept st (state_of (stop_if_no_tracks c st)).
Proof.
  unfold stop_if_no_tracks.
  destruct (id_eqb (id c) Tracks); [|apply stream_kept_refl].
  unfold bind, get.
  destruct (Map_size (subtitleTracks st) =? 0)%nat; simpl;
    unfold stream_kept; auto.
Qed.

Lemma listeners_kept (ls : list (EbmlTag -> M unit)) (tag : EbmlTag) :
  (forall l c s, In l ls -> stream_kept s (state_of (l c s))) ->
  forall s, stream_kept s (state_of (forEach ls (fun l => l tag) s)).
Proof.
  induction ls as [|l ls IH]; intros Hl s.
  - apply stream_kept_refl.
  - simpl. unfold bind.
    pose proof (Hl l tag s (or_introl eq_refl)) as H1.
    destruct (l tag s) as [[[[]|] s1] e1]; unfold state_of in *; simpl in *.
    + assert (Hl' : forall l0 c s0, In l0 ls -> stream_kept s0 (snd (fst (l0 c s0))))
        by (intros; apply Hl; now right).
      specialize (IH Hl' s1).
      destruct (forEach ls (fun l0 => l0 tag) s1) as [[r s2] e2]; simpl in *.
      eapply stream_kept_trans; eassumption.
    + exact H1.
Qed.

Lemma decoder_write_unfold (listeners : list (EbmlTag -> M unit))
    (chunk : list byte) (st : SubtitleParserBase) :
  decoder_write listeners chunk st =
    match deliver listeners (decoder_data (decoder st) chunk) (with_chunk st chunk) with
    | (Normal _, st', ev) =>
        if decoder_throws (decoder st) chunk then (Thrown, st', ev)
        else (Normal tt, st', ev)
    | (Thrown, st', ev) => (Thrown, st', ev)
    end.
Proof.
  unfold decoder_write, bind, get, set_decoder, with_chunk. simpl.
  destruct (deliver listeners (decoder_data (decoder st) chunk) _) as [[[[]|] st'] ev];
    [|reflexivity].
  destruct (decoder_throws (decoder st) chunk); unfold throw, ret;
    now rewrite app_nil_r.
Qed.

Lemma deliver_kept (listeners : list (EbmlTag -> M unit)) (tags : list EbmlTag)
    (st : SubtitleParserBase) :
  (forall l c s, In l listeners -> stream_kept s (state_of (l c s))) ->
  stream_kept st (state_of (deliver listeners tags st)).
Proof.
  intros Hl. unfold deliver. apply forEach_kept.
  intros tag s. now apply listeners_kept.
Qed.

(** Writing a chunk to the decoder appends it to the chunks written and
    keeps the stability flag, whether the write throws or not. *)
Lemma decoder_write_log (listeners : list (EbmlTag -> M unit))
    (chunk : list byte) (st : SubtitleParserBase) :
  (forall l c s, In l listeners -> stream_kept s (state_of (l c s))) ->
  let st' := state_of (decoder_write listeners chunk st) in
  decoder st' = (decoder st ++ [chunk])%list /\
  unstable st' = unstable st /\
  (ended st = true -> ended st' = true).
Proof.
  intros Hl. rewrite decoder_write_unfold.
  pose proof (deliver_kept listeners (decoder_data (decoder st) chunk)
                (with_chunk st chunk) Hl) as (H1 & H2 & H3).
  unfold state_of in *.
  destruct (deliver listeners _ _) as [[[[]|] st2] ev2]; simpl in *;
    [destruct (decoder_throws (decoder st) chunk)| ]; simpl; auto.
Qed.

Lemma dist_listener_kept (l : EbmlTag -> M unit) (c : EbmlTag)
    (s : SubtitleParserBase) :
  In l [dist_parseEbmlSubtitles] -> stream_kept s (state_of (l c s)).
Proof. intros [<- | []]. apply parse_kept. Qed.

(** A guarded write to the decoder never throws; the chunk is appended
    to the chunks written and the stability flag is kept. *)
Lemma decoderWrite_log (chunk : list byte) (st : SubtitleParserBase) :
  exists st' ev,
    decoderWrite chunk st = (Normal tt, st', ev) /\
    decoder st' = (decoder st ++ [chunk])%list /\
    unstable st' = unstable st.
Proof.
  pose proof (decoder_write_log [dist_parseEbmlSubtitles] chunk st
                dist_listener_kept) as (H1 & H2 & _).
  unfold decoderWrite, try_catch, state_of in *.
  destruct (decoder_write [dist_parseEbmlSubtitles] chunk st)
    as [[[[]|] st'] ev]; simpl in *; eauto.
Qed.

Lemma ondata_stable (chunk : list byte) (st : SubtitleParserBase) :
  unstable st = false -> _ondata chunk st = decoderWrite chunk st.
Proof.
  intros Hu. unfold _ondata, bind, get. rewrite Hu.
  now destruct (decoderWrite chunk st) as [[r s'] ev].
Qed.

Lemma ondata_found (chunk : list byte) (st : SubtitleParserBase) (i : nat) :
  unstable st = true -> scan chunk = Some i ->
  _ondata chunk st = decoderWrite (skipn i chunk) (with_unstable st false).
Proof.
  intros Hu Hs. unfold _ondata, bind, get, set_unstable. rewrite Hu, Hs.
  fold (with_unstable st false).
  now destruct (decoderWrite (skipn i chunk) (with_unstable st false))
    as [[r s'] ev].
Qed.

Lemma ondata_dropped (chunk : list byte) (st : SubtitleParserBase) :
  unstable st = true -> scan chunk = None ->
  _ondata chunk st = (Normal tt, st, []).
Proof. intros Hu Hs. unfold _ondata, bind, get. now rewrite Hu, Hs. Qed.

(** The first index of a range that passes a test. *)
Lemma find_seq_first (f : nat -> bool) (n a i : nat) :
  (a <= i < a + n)%nat -> f i = true ->
  (forall j, (a <= j < i)%nat -> f j = false) ->
  find f (seq a n) = Some i.
Proof.
  revert a. induction n as [|n IH]; intros a Hi Hf Hfirst; [lia|].
  simpl. destruct (Nat.eq_dec a i) as [->|Hne].
  - now rewrite Hf.
  - rewrite (Hfirst a) by lia. apply IH; [lia | assumption |].
    intros j Hj. apply Hfirst. lia.
Qed.

Lemma find_seq_none (f : nat -> bool) (n a : nat) :
  (forall j, (a <= j < a + n)%nat -> f j = false) ->
  find f (seq a n) = None.
Proof.
  revert a. induction n as [|n IH]; intros a Hnone; [reflexivity|].
  simpl. rewrite (Hnone a) by lia. apply IH. intros j Hj. apply Hnone. lia.
Qed.

(** C6, as the code has it: while unstable, if the test for a cluster
    (signature 1F 43 B6 75, a size byte of encoded length len, and E7 at
    offset 4 + len after the signature) passes at an offset i that is
    more than 12 bytes before the end of the chunk and at no offset
    before i, the parser becomes stable and writes to the decoder, under
    its guard against errors, exactly the chunk from offset i on; if the
    test passes at no offset more than 12 bytes before the end, the
    parser stays unstable, writes nothing to the decoder and emits
    nothing. *)
Theorem resync_scan (chunk : list byte) (st : SubtitleParserBase) :
  unstable st = true ->
  (forall i,
     cluster_at chunk i = true ->
     (i + 12 < List.length chunk)%nat ->
     (forall j, (j < i)%nat -> cluster_at chunk j = false) ->
     _ondata chunk st = decoderWrite (skipn i chunk) (with_unstable st false) /\
     completion_of (_ondata chunk st) = Normal tt /\
     unstable (state_of (_ondata chunk st)) = false /\
     decoder (state_of (_ondata chunk st))
       = (decoder st ++ [skipn i chunk])%list) /\
  ((forall i, (i + 12 < List.length chunk)%nat -> cluster_at chunk i = false) ->
   _ondata chunk st = (Normal tt, st, [])).
Proof.
  intros Hu. split.
  - intros i Hat Hlen Hfirst.
    assert (Hscan : scan chunk = Some i).
    { unfold scan. apply find_seq_first; [lia | assumption |].
      intros j Hj. apply Hfirst. lia. }
    rewrite (ondata_found _ _ _ Hu Hscan).
    destruct (decoderWrite_log (skipn i chunk) (with_unstable st false))
      as (st' & ev & -> & Hd & Hun).
    repeat split; assumption.
  - intros Hnone. apply ondata_dropped; [assumption|].
    unfold scan. apply find_seq_none. intros j Hj. apply Hnone. lia.
Qed.

(** Feeding chunks to a stream whose stability flag is not set. *)
Lemma ondata_chunks_stable (cs : list (list byte)) (st : SubtitleParserBase) :
  unstable st = false ->
  exists st' ev,
    forEach cs _ondata st = (Normal tt, st', ev) /\
    unstable st' = false /\
    decoder st' = (decoder st ++ cs)%list.
Proof.
  revert st. induction cs as [|c cs IH]; intros st Hu.
  - exists st, []. rewrite app_nil_r. auto.
  - simpl. unfold bind. rewrite (ondata_stable _ _ Hu).
    destruct (decoderWrite_log c st) as (st1 & ev1 & -> & Hd1 & Hu1).
    destruct (IH st1) as (st2 & ev2 & -> & Hu2 & Hd2); [congruence|].
    exists st2, (ev1 ++ ev2)%list. repeat split; auto.
    rewrite Hd2, Hd1, <- app_assoc. reflexivity.
Qed.

(** C10: a stream made without a prior instance is not unstable, and
    stays so whatever chunks arrive: each chunk is written whole to the
    decoder under the guard against errors, the scan is never made, the
    chunks written to the decoder are exactly the chunks received, in
    order, and no chunk makes the handler throw, whatever the decoder
    does. *)
Theorem fresh_stream_forwards_all (cs : list (list byte)) :
  unstable (SubtitleStream_new None) = false /\
  completion_of (forEach cs _ondata (SubtitleStream_new None)) = Normal tt /\
  unstable (state_of (forEach cs _ondata (SubtitleStream_new None))) = false /\
  decoder (state_of (forEach cs _ondata (SubtitleStream_new None))) = cs /\
  (forall (c : list byte) (st : SubtitleParserBase),
     completion_of (_ondata c st) = Normal tt) /\
  (forall (c : list byte) (n : nat),
     let st := state_of (forEach (firstn n cs) _ondata (SubtitleStream_new None)) in
     _ondata c st = decoderWrite c st).
Proof.
  split; [reflexivity|].
  destruct (ondata_chunks_stable cs (SubtitleStream_new None) eq_refl)
    as (st' & ev & Hrun & Hu & Hd).
  rewrite Hrun. unfold completion_of, state_of. cbn [fst snd].
  split; [reflexivity|]. split; [assumption|]. split; [assumption|]. split.
  - intros c st. destruct (unstable st) eqn:Hust.
    + destruct (scan c) as [i|] eqn:Hs.
      * rewrite (ondata_found _ _ _ Hust Hs).
        now destruct (decoderWrite_log (skipn i c) (with_unstable st false))
          as (s1 & e1 & -> & _).
      * now rewrite (ondata_dropped _ _ Hust Hs).
    + rewrite (ondata_stable _ _ Hust).
      now destruct (decoderWrite_log c st) as (s1 & e1 & -> & _).
  - intros c n.
    destruct (ondata_chunks_stable (firstn n cs) (SubtitleStream_new None) eq_refl)
      as (s1 & e1 & Hrun1 & Hu1 & _).
    rewrite Hrun1. cbn [fst snd]. now apply ondata_stable.
Qed.

(** C8: a stream made from a prior instance has the registry and the
    timecode scale of that instance, a cluster timecode that is the unset
    initial value whatever the prior instance had, and is unstable; the
    listener then sets the cluster timecode on a Timecode element only,
    and until the scan has found a cluster a chunk changes nothing. *)
Theorem stream_from_prior_instance (prev : SubtitleParserBase) :
  let s := SubtitleStream_new (Some prev) in
  subtitleTracks s = subtitleTracks prev /\
  timecodeScale s = timecodeScale prev /\
  _currentClusterTimecode s = VNull /\
  _currentClusterTimecode s = _currentClusterTimecode SubtitleParserBase_new /\
  unstable s = true /\
  (forall (c : EbmlTag) (st : SubtitleParserBase),
     _currentClusterTimecode (state_of (dist_parseEbmlSubtitles c st))
       = (if id_eqb (id c) Timecode then data c
          else _currentClusterTimecode st)) /\
  (forall chunk : list byte,
     match scan chunk with
     | None => _ondata chunk s = (Normal tt, s, [])
     | Some i => _ondata chunk s = decoderWrite (skipn i chunk) (with_unstable s false)
     end).
Proof.
  cbv zeta. split; [reflexivity|]. split; [reflexivity|].
  split; [reflexivity|]. split; [reflexivity|]. split; [reflexivity|]. split.
  - intros c st. apply (parse_frame false c st).
  - intros chunk. destruct (scan chunk) as [i|] eqn:Hs.
    + now apply ondata_found.
    + now apply ondata_dropped.
Qed.

(** *** The one-shot parser *)

Lemma bind_assoc {A B C} (m : M A) (k : A -> M B) (h : B -> M C)
    (st : SubtitleParserBase) :
  bind (bind m k) h st = bind m (fun a => bind (k a) h) st.
Proof.
  unfold bind. destruct (m st) as [[[a|] s1] e1]; [|reflexivity].
  destruct (k a s1) as [[[b|] s2] e2]; [|reflexivity].
  destruct (h b s2) as [[r s3] e3]. now rewrite app_assoc.
Qed.

Lemma bind_ext {A B} (m : M A) (k k' : A -> M B) (st : SubtitleParserBase) :
  (forall a s, k a s = k' a s) -> bind m k st = bind m k' st.
Proof.
  intros H. unfold bind. destruct (m st) as [[[a|] s1] e1]; [|reflexivity].
  now rewrite H.
Qed.

Lemma forEach_app {A} (l1 l2 : list A) (body : A -> M unit)
    (st : SubtitleParserBase) :
  forEach (l1 ++ l2)%list body st
    = bind (forEach l1 body) (fun _ => forEach l2 body) st.
Proof.
  revert st. induction l1 as [|x l1 IH]; intros st; simpl.
  - now rewrite bind_ret_l.
  - rewrite bind_assoc. apply bind_ext. intros _ s. apply IH.
Qed.

Lemma parser_listener_kept (l : EbmlTag -> M unit) (c : EbmlTag)
    (s : SubtitleParserBase) :
  In l SubtitleParser_listeners -> stream_kept s (state_of (l c s)).
Proof.
  intros [<- | [<- | []]]; [apply parse_kept | apply stop_if_no_tracks_kept].
Qed.

(** When both listeners have run on a Tracks element and the registry is
    empty, [end()] has been called. *)
Lemma listeners_end_on_empty_tracks (tag : EbmlTag)
    (st st' : SubtitleParserBase) (ev : list Event) :
  id tag = Tracks ->
  forEach SubtitleParser_listeners (fun l => l tag) st = (Normal tt, st', ev) ->
  Map_size (subtitleTracks st') = 0%nat ->
  ended st' = true.
Proof.
  intros Hid. unfold SubtitleParser_listeners. simpl forEach.
  unfold bind at 1.
  destruct (dist_parseEbmlSubtitles tag st) as [[[[]|] s1] e1];
    [|discriminate].
  rewrite bind_ret_r. unfold stop_if_no_tracks.
  rewrite Hid, id_eqb_refl. unfold bind, get. cbv beta iota.
  destruct (Map_size (subtitleTracks s1) =? 0)%nat eqn:Hsz; simpl;
    intros Heq H0; injection Heq as <- _.
  - reflexivity.
  - apply Nat.eqb_neq in Hsz. contradiction.
Qed.

Lemma deliver_app (ls : list (EbmlTag -> M unit)) (a b : list EbmlTag)
    (st : SubtitleParserBase) :
  deliver ls (a ++ b)%list st = bind (deliver ls a) (fun _ => deliver ls b) st.
Proof. unfold deliver. apply forEach_app. Qed.

Lemma deliver_single (ls : list (EbmlTag -> M unit)) (tag : EbmlTag)
    (st : SubtitleParserBase) :
  deliver ls [tag] st = forEach ls (fun l => l tag) st.
Proof. unfold deliver. cbn [forEach]. apply bind_ret_r. Qed.

Lemma deliver_ends_on_empty_tracks (before : list EbmlTag) (tag : EbmlTag)
    (st st' : SubtitleParserBase) (ev : list Event) :
  id tag = Tracks ->
  deliver SubtitleParser_listeners (before ++ [tag]) st = (Normal tt, st', ev) ->
  Map_size (subtitleTracks st') = 0%nat ->
  ended st' = true.
Proof.
  intros Hid. rewrite deliver_app. unfold bind at 1.
  destruct (deliver SubtitleParser_listeners before st) as [[[[]|] s1] e1];
    [|discriminate].
  rewrite deliver_single.
  destruct (forEach SubtitleParser_listeners (fun l => l tag) s1)
    as [[r s2] e2] eqn:Hrun.
  intros Heq Hsz. injection Heq as -> -> _.
  eapply listeners_end_on_empty_tracks; eassumption.
Qed.

(** C9, as the code has it: when, during a write to the one-shot parser,
    both listeners have run on a Tracks element and the registry is then
    empty, the parser has called [end()] on itself: the end flag is set
    when that write is over, and every later write is refused, so that
    nothing more reaches the decoder and nothing more is emitted.  (The
    elements that the decoder still delivers from the chunk of that same
    write are handled as usual.) *)
Theorem parser_ends_without_tracks (chunk : list byte)
    (st : SubtitleParserBase) (before after : list EbmlTag) (tag : EbmlTag) :
  ended st = false ->
  decoder_data (decoder st) chunk = (before ++ tag :: after)%list ->
  id tag = Tracks ->
  completion_of (deliver SubtitleParser_listeners (before ++ [tag])
                   (with_chunk st chunk)) = Normal tt ->
  Map_size (subtitleTracks
              (state_of (deliver SubtitleParser_listeners (before ++ [tag])
                           (with_chunk st chunk)))) = 0%nat ->
  let st' := state_of (SubtitleParser_write chunk st) in
  ended st' = true /\
  (forall later,
     SubtitleParser_write later st' = (Thrown, st', []) /\
     decoder (state_of (SubtitleParser_write later st')) = decoder st' /\
     events_of (SubtitleParser_write later st') = []).
Proof.
  intros Hend Hdata Hid Hc Hsz st'.
  assert (Hrefuse : forall s later, ended s = true ->
            SubtitleParser_write later s = (Thrown, s, [])).
  { intros s later Hs. unfold SubtitleParser_write, bind, get. now rewrite Hs. }
  assert (Hst' : ended st' = true).
  { unfold st', SubtitleParser_write. unfold bind at 1, get at 1.
    rewrite Hend. unfold SubtitleParser__write.
    destruct (deliver SubtitleParser_listeners (before ++ [tag])
                (with_chunk st chunk)) as [[[[]|] s2] e2] eqn:Hrun;
      [|discriminate].
    unfold state_of in Hsz. simpl in Hsz.
    pose proof (deliver_ends_on_empty_tracks _ _ _ _ _ Hid Hrun Hsz) as Hs2.
    rewrite decoder_write_unfold, Hdata.
    replace (before ++ tag :: after)%list
      with ((before ++ [tag]) ++ after)%list by now rewrite <- app_assoc.
    rewrite deliver_app. unfold bind at 1. rewrite Hrun.
    pose proof (deliver_kept SubtitleParser_listeners after s2
                  parser_listener_kept) as (_ & _ & Hk).
    unfold state_of in *. specialize (Hk Hs2).
    destruct (deliver SubtitleParser_listeners after s2)
      as [[[[]|] s3] e3]; simpl in *;
      [destruct (decoder_throws (decoder st) chunk)|]; simpl; assumption. }
  split; [exact Hst'|].
  intros later. rewrite (Hrefuse st' later Hst'). auto.
Qed.

(** ** Further properties of the listener *)

(** *** The registry as a map *)

Lemma same_key_eq (a b : jsval) : same_key a b = true -> a = b.
Proof.
  unfold same_key, strict_eq.
  destruct a, b; try discriminate; intros H; try reflexivity.
  - apply Z.eqb_eq in H. now subst.
  - apply String.eqb_eq in H. now subst.
Qed.

Lemma Map_get_set_same (m : TrackMap) (k : jsval) (v : Track) :
  same_key k k = true -> Map_get (Map_set m k v) k = Some v.
Proof.
  intros Hk. induction m as [|[k' v'] m IH]; simpl.
  - now rewrite Hk.
  - destruct (same_key k' k) eqn:E; simpl; now rewrite E.
Qed.

Lemma Map_get_set_other (m : TrackMap) (k k2 : jsval) (v : Track) :
  same_key k k2 = false -> Map_get (Map_set m k v) k2 = Map_get m k2.
Proof.
  intros Hk. induction m as [|[k' v'] m IH]; simpl.
  - now rewrite Hk.
  - destruct (same_key k' k) eqn:E; simpl.
    + apply same_key_eq in E. subst k'. now rewrite Hk.
    + now rewrite IH.
Qed.

Lemma Map_has_set_mono (m : TrackMap) (k k2 : jsval) (v : Track) :
  Map_has m k2 = true -> Map_has (Map_set m k v) k2 = true.
Proof.
  unfold Map_has. induction m as [|[k' v'] m IH]; simpl; [discriminate|].
  destruct (same_key k' k) eqn:E; simpl.
  - destruct (same_key k' k2); auto.
  - destruct (same_key k' k2); auto.
Qed.

Lemma Map_size_set (m : TrackMap) (k : jsval) (v : Track) :
  Map_size (Map_set m k v)
    = if Map_has m k then Map_size m else S (Map_size m).
Proof.
  unfold Map_size, Map_has. induction m as [|[k' v'] m IH]; simpl; auto.
  destruct (same_key k' k) eqn:E; simpl; auto.
  rewrite IH. now destruct (Map_get m k).
Qed.

(** The three ways in which the registration of an entry ends. *)
Lemma registerEntry_cases (entry : EbmlTag) (this : SubtitleParserBase) :
  registerEntry entry this = (Normal tt, this, []) \/
  registerEntry entry this = (Thrown, this, []) \/
  exists tr,
    registerEntry entry this
      = (Normal tt,
         with_tracks this (Map_set (subtitleTracks this) (number tr) tr), []).
Proof.
  unfold registerEntry.
  destruct (negb (strict_eq (getData entry TrackType) (VInt 17))); [now left|].
  destruct (js_or (getData entry CodecID) (VStr "")) as [| |z|codecID|bf];
    try (right; now left).
  destruct (startsWith codecID "S_TEXT"); [|now left].
  right. right. eexists. reflexivity.
Qed.

(** A relation on registries kept by every registration: no key is
    lost and the size does not shrink. *)
Lemma registerEntry_grows (entry : EbmlTag) (this : SubtitleParserBase) :
  let m' := subtitleTracks (state_of (registerEntry entry this)) in
  (forall k, Map_has (subtitleTracks this) k = true -> Map_has m' k = true) /\
  (Map_size (subtitleTracks this) <= Map_size m')%nat.
Proof.
  cbv zeta.
  destruct (registerEntry_cases entry this) as [H | [H | [tr H]]];
    rewrite H; unfold state_of; cbn [fst snd]; try (split; [auto | apply le_n]).
  cbn [with_tracks subtitleTracks]. split.
  - intros k Hk. now apply Map_has_set_mono.
  - rewrite Map_size_set. destruct (Map_has (subtitleTracks this) (number tr)); lia.
Qed.

Lemma forEach_registerEntry_grows (l : list EbmlTag) (this : SubtitleParserBase) :
  let m' := subtitleTracks (state_of (forEach l registerEntry this)) in
  (forall k, Map_has (subtitleTracks this) k = true -> Map_has m' k = true) /\
  (Map_size (subtitleTracks this) <= Map_size m')%nat.
Proof.
  cbv zeta. revert this. induction l as [|e l IH]; intros this.
  - split; [auto | apply le_n].
  - cbn [forEach]. unfold bind.
    pose proof (registerEntry_grows e this) as [Hk Hs].
    destruct (registerEntry e this) as [[[[]|] s1] e1];
      unfold state_of in *; cbn [fst snd] in *.
    + pose proof (IH s1) as [Hk' Hs'].
      destruct (forEach l registerEntry s1) as [[r s2] e2];
        cbn [fst snd] in *.
      split; [auto | eapply Nat.le_trans; eassumption].
    + split; [auto | assumption].
Qed.

(** On a Tracks element the listener is its Tracks branch. *)
Lemma parse_Tracks (wc : bool) (chunk : EbmlTag) (this : SubtitleParserBase) :
  id chunk = Tracks ->
  parseEbmlSubtitles_build wc chunk this = parseTracks chunk this.
Proof.
  intros Hid. unfold parseEbmlSubtitles_build. rewrite Hid. simpl.
  unfold when. rewrite !bind_ret_l. now rewrite !bind_ret_r.
Qed.

(** What the listener does on an element that is neither a Tracks nor a
    BlockGroup element. *)
Lemma parse_simple (wc : bool) (chunk : EbmlTag) (this : SubtitleParserBase) :
  id chunk <> Tracks -> id chunk <> BlockGroup ->
  parseEbmlSubtitles_build wc chunk this =
    (Normal tt,
     mkParser (subtitleTracks this)
       (if id_eqb (id chunk) TimecodeScale
        then nquot (ToNumber (data chunk)) 1000000 else timecodeScale this)
       (if id_eqb (id chunk) Timecode
        then data chunk else _currentClusterTimecode this)
       (decoder this) (unstable this) (ended this),
     if id_eqb (id chunk) AttachedFile
     then [EvFile (getData chunk FileName) (getData chunk FileMimeType)
                  (getData chunk FileData)]
     else []).
Proof.
  intros Ht Hb. unfold parseEbmlSubtitles_build.
  destruct this as [m sc cl d u e].
  destruct (id chunk) eqn:Hid; try contradiction; reflexivity.
Qed.

(** X1: an element other than Tracks leaves the registry as it is; an
    element other than TimecodeScale, a Tracks element included, leaves
    the scale as it is, and a TimecodeScale element sets the scale to
    its data divided by 1000000: for integer data, the double nearest to
    that quotient. *)
Theorem only_tracks_change_registry (wc : bool) (chunk : EbmlTag)
    (this : SubtitleParserBase) :
  let this' := state_of (parseEbmlSubtitles_build wc chunk this) in
  (id chunk <> Tracks -> subtitleTracks this' = subtitleTracks this) /\
  timecodeScale this'
    = (if id_eqb (id chunk) TimecodeScale
       then nquot (ToNumber (data chunk)) 1000000 else timecodeScale this) /\
  (forall s, id chunk = TimecodeScale -> data chunk = VInt s ->
     timecodeScale this' = round64 (inject_Z s / inject_Z 1000000)).
Proof.
  cbv zeta.
  destruct (EbmlTagId_eq_dec (id chunk) Tracks) as [Ht|Ht].
  - rewrite parse_Tracks by assumption.
    destruct (parseTracks_frame chunk this) as (r & m & ev & -> & _).
    rewrite Ht. unfold state_of. simpl.
    split; [intros H; now elim H|]. split; [reflexivity|].
    intros s Hs. discriminate Hs.
  - destruct (EbmlTagId_eq_dec (id chunk) BlockGroup) as [Hb|Hb].
    + rewrite parse_BlockGroup by assumption.
      destruct (parseBlockGroup_frame wc chunk this) as (r & ev & ->).
      rewrite Hb. unfold state_of. simpl.
      split; [reflexivity|]. split; [reflexivity|].
      intros s Hs. discriminate Hs.
    + rewrite parse_simple by assumption. unfold state_of. simpl.
      split; [reflexivity|]. split; [reflexivity|].
      intros s Hs Hd. rewrite Hs, Hd. reflexivity.
Qed.

(** X2: no element makes the registry lose a track: a track number that
    is registered stays registered, and the registry never gets
    smaller. *)
Theorem registry_never_shrinks (wc : bool) (chunk : EbmlTag)
    (this : SubtitleParserBase) (k : jsval) :
  Map_has (subtitleTracks this) k = true ->
  let this' := state_of (parseEbmlSubtitles_build wc chunk this) in
  Map_has (subtitleTracks this') k = true /\
  (Map_size (subtitleTracks this) <= Map_size (subtitleTracks this'))%nat.
Proof.
  intros Hk. destruct (EbmlTagId_eq_dec (id chunk) Tracks) as [Ht|Ht].
  - rewrite parse_Tracks by assumption. unfold parseTracks, bind.
    pose proof (forEach_registerEntry_grows
                  (filter (fun c => id_eqb (id c) TrackEntry) (Children chunk))
                  this) as [Hg Hs].
    destruct (forEach _ registerEntry this) as [[[[]|] s1] e1];
      unfold state_of in *; simpl in *; auto.
  - destruct (EbmlTagId_eq_dec (id chunk) BlockGroup) as [Hb|Hb].
    + rewrite parse_BlockGroup by assumption.
      destruct (parseBlockGroup_frame wc chunk this) as (r & ev & ->).
      unfold state_of. simpl. auto.
    + rewrite parse_simple by assumption. unfold state_of. simpl. auto.
Qed.

(** X3: one element gives at most one event. *)
Theorem at_most_one_event (wc : bool) (chunk : EbmlTag)
    (this : SubtitleParserBase) :
  (List.length (events_of (parseEbmlSubtitles_build wc chunk this)) <= 1)%nat.
Proof.
  destruct (EbmlTagId_eq_dec (id chunk) Tracks) as [Ht|Ht].
  - rewrite parse_Tracks by assumption.
    destruct (parseTracks_frame chunk this) as (r & m & ev & -> & [-> | ->]);
      unfold events_of; simpl; lia.
  - destruct (EbmlTagId_eq_dec (id chunk) BlockGroup) as [Hb|Hb].
    + rewrite parse_BlockGroup by assumption.
      unfold parseBlockGroup, events_of.
      destruct (find (fun c => id_eqb (id c) Block) (Children chunk)) as [b|];
        [|simpl; lia].
      unfold bind at 1, get at 1.
      destruct (Map_has (subtitleTracks this) (VInt (track b)));
        [|simpl; lia].
      destruct (Map_get (subtitleTracks this) (VInt (track b))) as [tr|];
        [|simpl; lia].
      unfold inflate.
      destruct (_compressed tr); [destruct (inflateSync (payload b))|];
        simpl; lia.
    + rewrite parse_simple by assumption. unfold events_of. simpl.
      destruct (id_eqb (id chunk) AttachedFile); simpl; lia.
Qed.

(** X4: an AttachedFile element gives exactly one file event, with the
    data of its FileName, FileMimeType and FileData children (undefined
    for a child that is missing), and leaves the parser as it is. *)
Theorem attached_file_emitted (wc : bool) (chunk : EbmlTag)
    (this : SubtitleParserBase) :
  id chunk = AttachedFile ->
  parseEbmlSubtitles_build wc chunk this =
    (Normal tt, this,
     [EvFile (getData chunk FileName) (getData chunk FileMimeType)
             (getData chunk FileData)]) /\
  (Children chunk = [] ->
   events_of (parseEbmlSubtitles_build wc chunk this)
     = [EvFile VUndefined VUndefined VUndefined]).
Proof.
  intros Hid.
  assert (H : parseEbmlSubtitles_build wc chunk this =
    (Normal tt, this,
     [EvFile (getData chunk FileName) (getData chunk FileMimeType)
             (getData chunk FileData)])).
  { rewrite parse_simple by (rewrite Hid; discriminate).
    rewrite Hid. destruct this. reflexivity. }
  split; [exact H|].
  intros Hch. rewrite H. unfold events_of, getData. rewrite Hch. reflexivity.
Qed.

(** *** Registration of tracks *)

(** The registration of an entry that passes both tests. *)
Lemma registerEntry_accepts (entry : EbmlTag) (this : SubtitleParserBase)
    (s : string) :
  getData entry TrackType = VInt 17 ->
  getData entry CodecID = VStr s ->
  startsWith s "S_TEXT" = true ->
  registerEntry entry this
    = (Normal tt,
       with_tracks this
         (Map_set (subtitleTracks this) (getData entry TrackNumber)
                  (entry_track entry s)), []).
Proof.
  intros Hty Hcodec Hpre. unfold registerEntry. rewrite Hty, Hcodec.
  assert (Hor : js_or (VStr s) (VStr "") = VStr s).
  { unfold js_or. simpl. destruct (String.eqb_spec s ""); simpl; congruence. }
  simpl negb. cbv iota. rewrite Hor, Hpre. reflexivity.
Qed.

(** X5: registering a subtitle entry with an integer track number makes
    that number look up the new record; a number already registered is
    overwritten and the registry keeps its size, a new number makes it
    one larger; every other track number looks up what it did before. *)
Theorem track_upsert (entry : EbmlTag) (this : SubtitleParserBase)
    (s : string) (n : Z) :
  getData entry TrackType = VInt 17 ->
  getData entry CodecID = VStr s ->
  startsWith s "S_TEXT" = true ->
  getData entry TrackNumber = VInt n ->
  let m := subtitleTracks this in
  let m' := subtitleTracks (state_of (registerEntry entry this)) in
  Map_get m' (VInt n) = Some (entry_track entry s) /\
  Map_size m' = (if Map_has m (VInt n) then Map_size m else S (Map_size m)) /\
  (forall n', n' <> n -> Map_get m' (VInt n') = Map_get m (VInt n')).
Proof.
  intros Hty Hcodec Hpre Hn. cbv zeta.
  rewrite (registerEntry_accepts _ _ _ Hty Hcodec Hpre), Hn.
  unfold state_of. cbn [fst snd with_tracks subtitleTracks].
  split; [|split].
  - apply Map_get_set_same. simpl. apply Z.eqb_refl.
  - apply Map_size_set.
  - intros n' Hne. apply Map_get_set_other. simpl. apply Z.eqb_neq. congruence.
Qed.

(** X6: the record of a registered entry has the data of the Language
    child as its language (undefined when there is none), a name and a
    header only when the Name and CodecPrivate children are there and
    truthy (the header as text), and is marked compressed exactly when
    the entry has a ContentEncodings child with a ContentEncoding child
    with a ContentCompression child. *)
Theorem track_record_fields (entry : EbmlTag) (this : SubtitleParserBase)
    (s : string) (n : Z) :
  getData entry TrackType = VInt 17 ->
  getData entry CodecID = VStr s ->
  startsWith s "S_TEXT" = true ->
  getData entry TrackNumber = VInt n ->
  exists tr,
    Map_get (subtitleTracks (state_of (registerEntry entry this))) (VInt n)
      = Some tr /\
    number tr = VInt n /\
    language tr = getData entry Language /\
    (find (fun c => id_eqb (id c) Language) (Children entry) = None ->
       language tr = VUndefined) /\
    (find (fun c => id_eqb (id c) Name) (Children entry) = None ->
       name tr = None) /\
    (forall text, getData entry Name = VStr text ->
       name tr = if String.eqb text "" then None else Some (VStr text)) /\
    (find (fun c => id_eqb (id c) CodecPrivate) (Children entry) = None ->
       header tr = None) /\
    (forall b, getData entry CodecPrivate = VBuf b ->
       header tr = Some (Buffer_toString b)) /\
    _compressed tr = find_compression entry.
Proof.
  intros Hty Hcodec Hpre Hn. exists (entry_track entry s).
  rewrite (registerEntry_accepts _ _ _ Hty Hcodec Hpre), Hn.
  unfold state_of. cbn [fst snd with_tracks subtitleTracks].
  split; [apply Map_get_set_same; simpl; apply Z.eqb_refl|].
  unfold entry_track. cbn [number language name header _compressed].
  repeat split; auto.
  - intros H. unfold getData. now rewrite H.
  - intros H. unfold getData. now rewrite H.
  - intros text H. rewrite H. simpl. now destruct (String.eqb text "").
  - intros H. unfold getData. now rewrite H.
  - intros b H. now rewrite H.
Qed.

(** X7: an entry that is not of track type 0x11, or has no codec
    identifier, or an empty one, or one that does not start with
    "S_TEXT", is passed over: nothing is registered and nothing fails. *)
Theorem entry_passed_over (entry : EbmlTag) (this : SubtitleParserBase) :
  strict_eq (getData entry TrackType) (VInt 17) = false \/
  find (fun c => id_eqb (id c) CodecID) (Children entry) = None \/
  (exists s, getData entry CodecID = VStr s /\ startsWith s "S_TEXT" = false) ->
  registerEntry entry this = (Normal tt, this, []).
Proof.
  intros H. unfold registerEntry.
  destruct (strict_eq (getData entry TrackType) (VInt 17)) eqn:Hty;
    [|reflexivity].
  destruct H as [H | [H | (s & Hs & Hpre)]]; [discriminate | |].
  - unfold getData at 1. rewrite H. reflexivity.
  - rewrite Hs.
    assert (Hor : js_or (VStr s) (VStr "") = VStr s).
    { unfold js_or. simpl. destruct (String.eqb_spec s ""); simpl; congruence. }
    simpl negb. cbv iota. now rewrite Hor, Hpre.
Qed.

Lemma entry_skipped_type (entry : EbmlTag) (this : SubtitleParserBase) :
  negb (strict_eq (getData entry TrackType) (VInt 17)) = true ->
  registerEntry entry this = (Normal tt, this, []).
Proof. intros H. unfold registerEntry. now rewrite H. Qed.

Lemma forEach_registerEntry_text (l : list EbmlTag) (this : SubtitleParserBase) :
  forallb codec_is_text l = true ->
  completion_of (forEach l registerEntry this) = Normal tt.
Proof.
  revert this. induction l as [|e l IH]; intros this Hall; [reflexivity|].
  simpl in Hall. apply andb_prop in Hall as [He Hl].
  cbn [forEach]. unfold bind.
  assert (Hok : exists s1, registerEntry e this = (Normal tt, s1, [])).
  { unfold codec_is_text in He. unfold registerEntry.
    destruct (negb (strict_eq (getData e TrackType) (VInt 17)));
      [eexists; reflexivity|].
    revert He.
    destruct (js_or (getData e CodecID) (VStr "")); try discriminate.
    intros _. destruct (startsWith s "S_TEXT"); eexists; reflexivity. }
  destruct Hok as [s1 ->]. specialize (IH s1 Hl).
  unfold completion_of in *.
  now destruct (forEach l registerEntry s1) as [[r s2] e2].
Qed.

(** X8: a Tracks element gives one tracks event that lists the registry
    as it is after the element, tracks registered by earlier elements
    included, unless the registration of an entry throws, in which case
    it gives no event; and it does not throw when the codec identifier
    of every entry is text or missing. *)
Theorem tracks_event_lists_registry (wc : bool) (chunk : EbmlTag)
    (this : SubtitleParserBase) :
  id chunk = Tracks ->
  let r := parseEbmlSubtitles_build wc chunk this in
  match completion_of r with
  | Normal _ => events_of r = [EvTracks (Map_values (subtitleTracks (state_of r)))]
  | Thrown => events_of r = []
  end /\
  (forallb codec_is_text (track_entries chunk) = true ->
   completion_of r = Normal tt).
Proof.
  intros Hid. cbv zeta. rewrite parse_Tracks by assumption.
  unfold parseTracks, bind. fold (track_entries chunk). split.
  - destruct (forEach_registerEntry_frame (track_entries chunk) this)
      as (r & m & ->).
    destruct r as [[]|]; reflexivity.
  - intros Hall.
    pose proof (forEach_registerEntry_text (track_entries chunk) this Hall) as Hc.
    unfold completion_of in *.
    destruct (forEach (track_entries chunk) registerEntry this)
      as [[[[]|] s1] e1]; [reflexivity | discriminate].
Qed.

(** X9: a Tracks element whose entries are all of another track type
    than 0x11 leaves the parser as it is and gives a tracks event with
    the tracks known so far. *)
Theorem tracks_without_subtitles (wc : bool) (chunk : EbmlTag)
    (this : SubtitleParserBase) :
  id chunk = Tracks ->
  forallb (fun e => negb (strict_eq (getData e TrackType) (VInt 17)))
          (track_entries chunk) = true ->
  parseEbmlSubtitles_build wc chunk this
    = (Normal tt, this, [EvTracks (Map_values (subtitleTracks this))]).
Proof.
  intros Hid Hall. rewrite parse_Tracks by assumption.
  unfold parseTracks. fold (track_entries chunk).
  assert (H : forEach (track_entries chunk) registerEntry this
              = (Normal tt, this, [])).
  { induction (track_entries chunk) as [|e l IH]; [reflexivity|].
    simpl in Hall. apply andb_prop in Hall as [He Hl].
    cbn [forEach]. unfold bind.
    rewrite (entry_skipped_type e this He), (IH Hl). reflexivity. }
  unfold bind. rewrite H. reflexivity.
Qed.

(** *** Cues of either build *)

(** The cues of the BlockGroup branch are built by [buildSubtitle]. *)
Lemma parseBlockGroup_events (wc : bool) (chunk : EbmlTag)
    (this : SubtitleParserBase) (cue : JSObject) (n : Z) :
  In (EvSubtitle cue n) (events_of (parseBlockGroup wc chunk this)) ->
  exists t text time duration, cue = buildSubtitle wc t text time duration.
Proof.
  unfold parseBlockGroup, events_of.
  destruct (find (fun c => id_eqb (id c) Block) (Children chunk)) as [b|];
    [|intros []].
  unfold bind at 1, get at 1.
  destruct (Map_has (subtitleTracks this) (VInt (track b))); [|intros []].
  destruct (Map_get (subtitleTracks this) (VInt (track b))) as [tr|];
    [|intros []].
  unfold inflate.
  destruct (_compressed tr); [destruct (inflateSync (payload b))|];
    simpl; intros H; try contradiction;
    destruct H as [H | []]; injection H as <- _; eauto.
Qed.

Lemma parse_subtitle_events (wc : bool) (chunk : EbmlTag)
    (this : SubtitleParserBase) (cue : JSObject) (n : Z) :
  In (EvSubtitle cue n) (events_of (parseEbmlSubtitles_build wc chunk this)) ->
  exists t text time duration, cue = buildSubtitle wc t text time duration.
Proof.
  destruct (EbmlTagId_eq_dec (id chunk) Tracks) as [Ht|Ht].
  - rewrite parse_Tracks by assumption.
    destruct (parseTracks_frame chunk this) as (r & m & ev & -> & [-> | ->]);
      unfold events_of; simpl; [intros [] | intros [H | []]; discriminate].
  - destruct (EbmlTagId_eq_dec (id chunk) BlockGroup) as [Hb|Hb].
    + rewrite parse_BlockGroup by assumption. apply parseBlockGroup_events.
    + rewrite parse_simple by assumption. unfold events_of. simpl.
      destruct (id_eqb (id chunk) AttachedFile); simpl;
        [intros [H | []]; discriminate | intros []].
Qed.

Lemma buildSubtitle_ssa_content (wc : bool) (t text : string)
    (time duration : jsnum) :
  Set_has SSA_TYPES t = true ->
  obj_get (buildSubtitle wc t text time duration) "content"
    = if wc then Some (PStr (dialogue t text time duration)) else None.
Proof.
  intros Hssa. unfold buildSubtitle. rewrite Hssa.
  rewrite obj_get_set_other by reflexivity. destruct wc.
  - apply obj_get_set_same.
  - rewrite assign_keys_other by reflexivity. reflexivity.
Qed.

(** X10: every cue that the listener emits has a text, a time and a
    duration; the cues of the module source also have a content, which
    is text, and the cues of the distributed build never have one. *)
Theorem cue_shape (wc : bool) (chunk : EbmlTag) (this : SubtitleParserBase)
    (cue : JSObject) (n : Z) :
  In (EvSubtitle cue n) (events_of (parseEbmlSubtitles_build wc chunk this)) ->
  (exists text, obj_get cue "text" = Some (PStr text)) /\
  (exists time, obj_get cue "time" = Some (PNum time)) /\
  (exists duration, obj_get cue "duration" = Some (PNum duration)) /\
  (if wc then exists content, obj_get cue "content" = Some (PStr content)
   else obj_get cue "content" = None).
Proof.
  intros Hin.
  destruct (parse_subtitle_events _ _ _ _ _ Hin) as (t & text & time & dur & ->).
  destruct (buildSubtitle_time wc t text time dur) as [Ht Hd].
  split; [|split; [eauto | split; [eauto|]]].
  - unfold buildSubtitle. destruct (Set_has SSA_TYPES t).
    + eexists. apply obj_get_set_same.
    + destruct wc; simpl; [|eexists; reflexivity].
      destruct (String.eqb t "utf8"); [eexists; reflexivity|].
      destruct (String.eqb t "webvtt"); eexists; reflexivity.
  - destruct (Set_has SSA_TYPES t) eqn:Hssa.
    + rewrite buildSubtitle_ssa_content by assumption. destruct wc; eauto.
    + unfold buildSubtitle. rewrite Hssa. destruct wc; simpl; [|reflexivity].
      destruct (String.eqb t "utf8"); [eexists; reflexivity|].
      destruct (String.eqb t "webvtt"); eexists; reflexivity.
Qed.

(** X11: on a registered track that is neither ssa nor ass, the cue of the
    module source keeps the payload text as its text, has none of the
    SSA properties, and its content is, for utf8, the two times rendered
    with a comma, " --> " between them, a line break, the text and a line
    break; for webvtt the same with a dot; for any other type the text
    alone. *)
Theorem plain_cue_content (chunk b : EbmlTag)
    (this : SubtitleParserBase) (tr : Track) (p : list byte) :
  id chunk = BlockGroup ->
  find (fun c => id_eqb (id c) Block) (Children chunk) = Some b ->
  Map_get (subtitleTracks this) (VInt (track b)) = Some tr ->
  readable tr b = Some p ->
  Set_has SSA_TYPES (type tr) = false ->
  let text := Buffer_toString p in
  let time :=
    nmul (js_plus (value b) (_currentClusterTimecode this)) (timecodeScale this) in
  let duration :=
    nmul (ToNumber (getData chunk BlockDuration)) (timecodeScale this) in
  let crlf := String "013" (String "010" EmptyString) in
  exists cue,
    parseEbmlSubtitles chunk this
      = (Normal tt, this, [EvSubtitle cue (track b)]) /\
    obj_get cue "text" = Some (PStr text) /\
    (forall i, (i < 8)%nat -> obj_get cue (nth i SSA_KEYS "") = None) /\
    obj_get cue "content" = Some (PStr (
      if String.eqb (type tr) "utf8" then
        toTimeString time false true ++ " --> " ++
        toTimeString (nadd time duration) false true ++ crlf ++ text ++ crlf
      else if String.eqb (type tr) "webvtt" then
        toTimeString time false false ++ " --> " ++
        toTimeString (nadd time duration) false false ++ crlf ++ text ++ crlf
      else text)).
Proof.
  intros Hid Hb Hget Hp Hssa text time duration crlf.
  eexists. split; [apply block_emits_cue; eassumption|].
  fold text time duration. unfold buildSubtitle. rewrite Hssa. simpl negb.
  cbv iota.
  destruct (String.eqb (type tr) "utf8"); [|destruct (String.eqb (type tr) "webvtt")];
    (split; [reflexivity|]; split; [|reflexivity]);
    intros i Hi;
    do 8 (destruct i as [|i]; [reflexivity|]); lia.
Qed.

(** X12: a block that comes before any cluster timecode is timed as if
    the cluster timecode were 0: its time is its own timecode times the
    scale, that is, for a finite scale, the double nearest to the exact
    product of the two. *)
Theorem block_before_cluster_timecode (wc : bool) (chunk b : EbmlTag)
    (this : SubtitleParserBase) (tr : Track) (p : list byte) :
  id chunk = BlockGroup ->
  find (fun c => id_eqb (id c) Block) (Children chunk) = Some b ->
  Map_get (subtitleTracks this) (VInt (track b)) = Some tr ->
  readable tr b = Some p ->
  _currentClusterTimecode this = VNull ->
  exists cue,
    parseEbmlSubtitles_build wc chunk this
      = (Normal tt, this, [EvSubtitle cue (track b)]) /\
    obj_get cue "time"
      = Some (PNum (nmul (ofZ (value b)) (timecodeScale this))) /\
    (forall s, timecodeScale this = Num s ->
       obj_get cue "time"
         = Some (PNum (round64 (inject_Z (value b) * s)))).
Proof.
  intros Hid Hb Hget Hp Hnull. eexists. split.
  - apply block_emits_cue; eassumption.
  - rewrite Hnull.
    destruct (buildSubtitle_time wc (type tr) (Buffer_toString p)
      (nmul (js_plus (value b) VNull) (timecodeScale this))
      (nmul (ToNumber (getData chunk BlockDuration)) (timecodeScale this)))
      as [Ht _].
    split; [exact Ht|].
    intros s Hs. rewrite Ht, Hs. reflexivity.
Qed.

(** X13: a block on a compressed track whose payload does not inflate
    makes the listener throw: no cue is emitted and the parser is left
    as it is. *)
Theorem inflate_failure_throws (wc : bool) (chunk b : EbmlTag)
    (this : SubtitleParserBase) (tr : Track) :
  id chunk = BlockGroup ->
  find (fun c => id_eqb (id c) Block) (Children chunk) = Some b ->
  Map_get (subtitleTracks this) (VInt (track b)) = Some tr ->
  _compressed tr = true ->
  inflateSync (payload b) = None ->
  parseEbmlSubtitles_build wc chunk this = (Thrown, this, []).
Proof.
  intros Hid Hb Hget Hc Hinf. rewrite parse_BlockGroup by assumption.
  unfold parseBlockGroup. rewrite Hb. unfold bind at 1, get at 1.
  unfold Map_has. rewrite Hget, Hc. unfold inflate. rewrite Hinf. reflexivity.
Qed.

(** X14: a block on a compressed track whose payload inflates gives a
    cue made from the inflated bytes, not from the payload: its text is
    the text of the inflated bytes, and on an ssa or ass track what
    follows the eighth comma of that text. *)
Theorem inflated_text (chunk b : EbmlTag)
    (this : SubtitleParserBase) (tr : Track) (inflated : list byte) :
  id chunk = BlockGroup ->
  find (fun c => id_eqb (id c) Block) (Children chunk) = Some b ->
  Map_get (subtitleTracks this) (VInt (track b)) = Some tr ->
  _compressed tr = true ->
  inflateSync (payload b) = Some inflated ->
  exists cue,
    parseEbmlSubtitles chunk this
      = (Normal tt, this, [EvSubtitle cue (track b)]) /\
    obj_get cue "text"
      = Some (PStr (if Set_has SSA_TYPES (type tr)
                    then join "," (skipn 8 (split comma (Buffer_toString inflated)))
                    else Buffer_toString inflated)).
Proof.
  intros Hid Hb Hget Hc Hinf. eexists. split.
  - apply block_emits_cue; try eassumption. unfold readable. rewrite Hc.
    exact Hinf.
  - unfold buildSubtitle. destruct (Set_has SSA_TYPES (type tr)).
    + apply obj_get_set_same.
    + simpl.
      destruct (String.eqb (type tr) "utf8"); [reflexivity|].
      destruct (String.eqb (type tr) "webvtt"); reflexivity.
Qed.

(** X15: in the Dialogue line of an ssa or ass cue whose text has nine
    fields or more, the fields after the two times are the cue's own
    style, name, three margins, effect and text, in that order and
    joined by commas; the field before the times is the cue's layer for
    ass and "Marked=0" for ssa, where no layer is set. *)
Theorem dialogue_line_from_cue_fields (chunk b : EbmlTag)
    (this : SubtitleParserBase) (tr : Track) (p : list byte) :
  id chunk = BlockGroup ->
  find (fun c => id_eqb (id c) Block) (Children chunk) = Some b ->
  Map_get (subtitleTracks this) (VInt (track b)) = Some tr ->
  readable tr b = Some p ->
  Set_has SSA_TYPES (type tr) = true ->
  (9 <= List.length (split comma (Buffer_toString p)))%nat ->
  let time :=
    nmul (js_plus (value b) (_currentClusterTimecode this)) (timecodeScale this) in
  let duration :=
    nmul (ToNumber (getData chunk BlockDuration)) (timecodeScale this) in
  exists cue layer style name marginL marginR marginV effect text,
    parseEbmlSubtitles chunk this
      = (Normal tt, this, [EvSubtitle cue (track b)]) /\
    obj_get cue "layer"
      = (if String.eqb (type tr) "ssa" then None else Some (PStr layer)) /\
    obj_get cue "style" = Some (PStr style) /\
    obj_get cue "name" = Some (PStr name) /\
    obj_get cue "marginL" = Some (PStr marginL) /\
    obj_get cue "marginR" = Some (PStr marginR) /\
    obj_get cue "marginV" = Some (PStr marginV) /\
    obj_get cue "effect" = Some (PStr effect) /\
    obj_get cue "text" = Some (PStr text) /\
    obj_get cue "content"
      = Some (PStr ("Dialogue: " ++
                    (if String.eqb (type tr) "ssa" then "Marked=0" else layer) ++
                    "," ++ toTimeString time true false ++
                    "," ++ toTimeString (nadd time duration) true false ++
                    "," ++ join "," [style; name; marginL; marginR; marginV;
                                     effect; text])).
Proof.
  intros Hid Hb Hget Hp Hssa Hlen time duration.
  remember (split comma (Buffer_toString p)) as values eqn:Hv.
  destruct values as [|f0 [|f1 [|f2 [|f3 [|f4 [|f5 [|f6 [|f7 [|f8 rest]]]]]]]]];
    simpl in Hlen; try lia.
  exists (buildSubtitle true (type tr) (Buffer_toString p) time duration),
         f1, f2, f3, f4, f5, f6, f7, (join "," (f8 :: rest)).
  split; [apply block_emits_cue; eassumption|].
  unfold buildSubtitle, dialogue. rewrite Hssa, <- Hv.
  apply Set_has_SSA in Hssa. destruct Hssa as [E | E]; rewrite E;
    repeat split; reflexivity.
Qed.

(** X16: a TimecodeScale element, a Timecode element and a BlockGroup on
    a registered track, processed in that order, give one cue, timed at
    (timecode of the block + data of the Timecode element) * (data of
    the TimecodeScale element / 1000000), each operation rounded to the
    nearest double; the scale is the double nearest to the quotient and
    the registry is as before. *)
Theorem scale_timecode_block (wc : bool) (scale timecode chunk b : EbmlTag)
    (this : SubtitleParserBase) (tr : Track) (p : list byte) (s base : Z) :
  id scale = TimecodeScale -> data scale = VInt s ->
  id timecode = Timecode -> data timecode = VInt base ->
  id chunk = BlockGroup ->
  find (fun c => id_eqb (id c) Block) (Children chunk) = Some b ->
  Map_get (subtitleTracks this) (VInt (track b)) = Some tr ->
  readable tr b = Some p ->
  exists cue this',
    forEach [scale; timecode; chunk] (parseEbmlSubtitles_build wc) this
      = (Normal tt, this', [EvSubtitle cue (track b)]) /\
    obj_get cue "time"
      = Some (PNum (nmul (nadd (ofZ (value b)) (ofZ base))
                         (round64 (inject_Z s / inject_Z 1000000)))) /\
    subtitleTracks this' = subtitleTracks this /\
    timecodeScale this' = round64 (inject_Z s / inject_Z 1000000) /\
    _currentClusterTimecode this' = VInt base.
Proof.
  intros Hs Hsd Ht Htd Hid Hb Hget Hp.
  cbn [forEach]. unfold bind at 1.
  rewrite (parse_simple wc scale this) by (rewrite Hs; discriminate).
  rewrite Hs, Hsd. simpl id_eqb. cbv iota.
  unfold bind at 1.
  rewrite (parse_simple wc timecode) by (rewrite Ht; discriminate).
  rewrite Ht, Htd. simpl id_eqb. cbv iota. cbn [subtitleTracks timecodeScale
    _currentClusterTimecode decoder unstable ended].
  rewrite bind_ret_r.
  set (st := mkParser _ _ _ _ _ _).
  assert (Hget' : Map_get (subtitleTracks st) (VInt (track b)) = Some tr)
    by exact Hget.
  rewrite (block_emits_cue wc chunk b st tr p Hid Hb Hget' Hp).
  eexists. exists st. split; [reflexivity|].
  split; [apply buildSubtitle_time|]. repeat split; reflexivity.
Qed.

(** *** The scan and the two streams *)

Lemma find_some_first {A} (f : A -> bool) (l : list A) (x : A) :
  find f l = Some x ->
  exists l1 l2, l = (l1 ++ x :: l2)%list /\ f x = true /\
                forallb (fun y => negb (f y)) l1 = true.
Proof.
  induction l as [|a l IH]; simpl; [discriminate|].
  destruct (f a) eqn:Ha.
  - intros H. injection H as <-. exists [], l. auto.
  - intros H. destruct (IH H) as (l1 & l2 & -> & Hx & Hl1).
    exists (a :: l1), l2. simpl. rewrite Ha. auto.
Qed.

Lemma find_seq_some (f : nat -> bool) (n a i : nat) :
  find f (seq a n) = Some i ->
  (a <= i < a + n)%nat /\ f i = true /\
  (forall j, (a <= j < i)%nat -> f j = false).
Proof.
  revert a. induction n as [|n IH]; intros a; simpl; [discriminate|].
  destruct (f a) eqn:Ha.
  - intros H. injection H as <-. repeat split; try lia; auto.
  - intros H. destruct (IH _ H) as (Hr & Hf & Hfirst).
    repeat split; try lia; auto.
    intros j Hj. destruct (Nat.eq_dec j a) as [->|Hne]; [assumption|].
    apply Hfirst. lia.
Qed.

Lemma size_length_range (b : byte) (len : nat) :
  size_length b = Some len -> (1 <= len <= 8)%nat.
Proof.
  destruct b; vm_compute; intros H; try discriminate;
    injection H as <-; lia.
Qed.

(** X17: an offset that the scan returns passes the test, lies more than
    12 bytes before the end of the chunk and is the first such offset;
    the byte tested as the start of the timecode lies 5 to 12 bytes
    after the offset, inside the chunk. *)
Theorem scan_finds_first (chunk : list byte) (i : nat) :
  scan chunk = Some i ->
  cluster_at chunk i = true /\
  (i + 12 < List.length chunk)%nat /\
  (forall j, (j < i)%nat -> cluster_at chunk j = false) /\
  exists sz len,
    nth_error chunk (i + 4) = Some sz /\
    size_length sz = Some len /\
    (1 <= len <= 8)%nat /\
    nth_error chunk (i + 4 + len) = Some xe7.
Proof.
  unfold scan. intros H. apply find_seq_some in H as (Hr & Hat & Hfirst).
  split; [assumption|]. split; [lia|]. split.
  - intros j Hj. apply Hfirst. lia.
  - unfold cluster_at in Hat.
    apply andb_prop in Hat as [_ Hat].
    destruct (nth_error chunk (i + 4)) as [sz|]; [|discriminate].
    destruct (size_length sz) as [len|] eqn:Hlen; [|discriminate].
    exists sz, len. split; [reflexivity|]. split; [exact Hlen|].
    split; [now apply size_length_range in Hlen|].
    unfold byte_at in Hat.
    destruct (nth_error chunk (i + 4 + len)) as [x|]; [|discriminate].
    apply Byte.byte_dec_bl in Hat. now subst.
Qed.

(** X18: while unstable, a chunk of 12 bytes or fewer (an empty one
    included) is dropped whatever it holds. *)
Theorem short_chunk_dropped (chunk : list byte) (st : SubtitleParserBase) :
  unstable st = true ->
  (List.length chunk <= 12)%nat ->
  _ondata chunk st = (Normal tt, st, []).
Proof.
  intros Hu Hlen. apply ondata_dropped; [assumption|].
  unfold scan. replace (List.length chunk - 12)%nat with 0%nat by lia.
  reflexivity.
Qed.

Lemma ondata_chunks_dropped (cs : list (list byte)) (st : SubtitleParserBase) :
  unstable st = true ->
  forallb (fun c => match scan c with None => true | Some _ => false end) cs
    = true ->
  forEach cs _ondata st = (Normal tt, st, []).
Proof.
  intros Hu. induction cs as [|c cs IH]; intros Hall; [reflexivity|].
  simpl in Hall. apply andb_prop in Hall as [Hc Hcs].
  cbn [forEach]. unfold bind.
  destruct (scan c) eqn:Hs; [discriminate|].
  rewrite (ondata_dropped _ _ Hu Hs), (IH Hcs). reflexivity.
Qed.

(** X19: an unstable stream that receives chunks in which the scan finds
    nothing, then a chunk in which it finds a cluster at offset [i], then
    any chunks, has handed to the decoder the found chunk from [i] on and
    every chunk after it whole, and nothing of the chunks before; it is
    stable from then on and no chunk made the handler throw. *)
Theorem resync_run (dropped kept : list (list byte)) (c : list byte) (i : nat)
    (st : SubtitleParserBase) :
  unstable st = true ->
  forallb (fun c => match scan c with None => true | Some _ => false end)
          dropped = true ->
  scan c = Some i ->
  let r := forEach (dropped ++ c :: kept)%list _ondata st in
  completion_of r = Normal tt /\
  unstable (state_of r) = false /\
  decoder (state_of r) = (decoder st ++ skipn i c :: kept)%list.
Proof.
  intros Hu Hdrop Hs. cbv zeta.
  assert (H : exists s2 ev,
            forEach (dropped ++ c :: kept)%list _ondata st = (Normal tt, s2, ev) /\
            unstable s2 = false /\
            decoder s2 = (decoder st ++ skipn i c :: kept)%list).
  { rewrite forEach_app. unfold bind at 1.
    rewrite (ondata_chunks_dropped _ _ Hu Hdrop).
    cbn [forEach]. unfold bind at 1. rewrite (ondata_found _ _ _ Hu Hs).
    destruct (decoderWrite_log (skipn i c) (with_unstable st false))
      as (s1 & e1 & -> & Hd1 & Hu1).
    destruct (ondata_chunks_stable kept s1 Hu1) as (s2 & e2 & -> & Hu2 & Hd2).
    exists s2, (e1 ++ e2)%list. split; [reflexivity|]. split; [assumption|].
    rewrite Hd2, Hd1. cbn [with_unstable decoder].
    rewrite <- app_assoc. reflexivity. }
  destruct H as (s2 & ev & -> & Hu2 & Hd2).
  unfold completion_of, state_of. cbn [fst snd]. auto.
Qed.

(** X20: an error thrown by the listener on an element is contained by
    the stream: the handler completes, the events emitted before stay
    emitted, and the elements that the decoder had still to deliver from
    that chunk are not processed. *)
Theorem stream_contains_listener_error (chunk : list byte)
    (st s0 s1 : SubtitleParserBase) (before after : list EbmlTag)
    (tag : EbmlTag) (ev0 ev1 : list Event) :
  unstable st = false ->
  decoder_data (decoder st) chunk = (before ++ tag :: after)%list ->
  deliver [dist_parseEbmlSubtitles] before (with_chunk st chunk)
    = (Normal tt, s0, ev0) ->
  dist_parseEbmlSubtitles tag s0 = (Thrown, s1, ev1) ->
  _ondata chunk st = (Normal tt, s1, (ev0 ++ ev1)%list).
Proof.
  intros Hu Hdata Hbefore Htag.
  rewrite (ondata_stable _ _ Hu). unfold decoderWrite, try_catch.
  rewrite decoder_write_unfold, Hdata, deliver_app.
  unfold bind at 1. rewrite Hbefore.
  change (tag :: after) with ([tag] ++ after)%list.
  rewrite deliver_app. unfold bind at 1.
  rewrite deliver_single. cbn [forEach]. unfold bind at 1. rewrite Htag.
  reflexivity.
Qed.

(** X21: in the one-shot parser an error thrown by the listener on an
    element comes out of the write. *)
Theorem parser_propagates_listener_error (chunk : list byte)
    (st s0 s1 : SubtitleParserBase) (before after : list EbmlTag)
    (tag : EbmlTag) (ev0 ev1 : list Event) :
  ended st = false ->
  decoder_data (decoder st) chunk = (before ++ tag :: after)%list ->
  deliver SubtitleParser_listeners before (with_chunk st chunk)
    = (Normal tt, s0, ev0) ->
  dist_parseEbmlSubtitles tag s0 = (Thrown, s1, ev1) ->
  SubtitleParser_write chunk st = (Thrown, s1, (ev0 ++ ev1)%list).
Proof.
  intros He Hdata Hbefore Htag.
  unfold SubtitleParser_write. unfold bind at 1, get at 1. rewrite He.
  unfold SubtitleParser__write.
  rewrite decoder_write_unfold, Hdata, deliver_app.
  unfold bind at 1. rewrite Hbefore.
  change (tag :: after) with ([tag] ++ after)%list.
  rewrite deliver_app. unfold bind at 1.
  rewrite deliver_single. unfold SubtitleParser_listeners at 1.
  cbn [forEach]. unfold bind at 1. rewrite Htag.
  reflexivity.
Qed.

Lemma parser_listeners_unfold (tag : EbmlTag) (st : SubtitleParserBase) :
  forEach SubtitleParser_listeners (fun l => l tag) st =
    match dist_parseEbmlSubtitles tag st with
    | (Normal _, s1, e1) =>
        match stop_if_no_tracks tag s1 with
        | (r, s2, e2) => (r, s2, (e1 ++ e2)%list)
        end
    | (Thrown, s1, e1) => (Thrown, s1, e1)
    end.
Proof.
  unfold SubtitleParser_listeners. cbn [forEach]. unfold bind at 1.
  destruct (dist_parseEbmlSubtitles tag st) as [[[[]|] s1] e1]; [|reflexivity].
  rewrite bind_ret_r. now destruct (stop_if_no_tracks tag s1) as [[r s2] e2].
Qed.

(** X22: the listeners of the one-shot parser call [end()] on a Tracks
    element that leaves the registry empty and on nothing else: if the
    end flag is set after an element and was not before, the element is
    a Tracks element and the registry is empty. *)
Theorem end_only_on_empty_tracks (tag : EbmlTag) (st : SubtitleParserBase) :
  ended st = false ->
  ended (state_of (forEach SubtitleParser_listeners (fun l => l tag) st)) = true ->
  id tag = Tracks /\
  Map_size (subtitleTracks
              (state_of (forEach SubtitleParser_listeners (fun l => l tag) st)))
    = 0%nat.
Proof.
  intros He. rewrite parser_listeners_unfold.
  pose proof (parse_frame false tag st) as (_ & _ & Hend & _).
  unfold dist_parseEbmlSubtitles, state_of in *.
  destruct (parseEbmlSubtitles_build false tag st) as [[[[]|] s1] e1];
    cbn [fst snd] in *; [|congruence].
  unfold stop_if_no_tracks.
  destruct (id_eqb (id tag) Tracks) eqn:Hid.
  - apply id_eqb_eq in Hid. unfold bind, get. cbv beta iota.
    destruct (Map_size (subtitleTracks s1) =? 0)%nat eqn:Hsz; simpl.
    + intros _. apply Nat.eqb_eq in Hsz. auto.
    + congruence.
  - simpl. congruence.
Qed.

(** X23: a write to a one-shot parser that has not ended hands the chunk
    to the decoder, whatever the listeners do with its elements. *)
Theorem parser_write_reaches_decoder (chunk : list byte)
    (st : SubtitleParserBase) :
  ended st = false ->
  decoder (state_of (SubtitleParser_write chunk st))
    = (decoder st ++ [chunk])%list.
Proof.
  intros He. unfold SubtitleParser_write. unfold bind at 1, get at 1.
  rewrite He.
  pose proof (decoder_write_log SubtitleParser_listeners chunk st
                parser_listener_kept) as (Hd & _).
  unfold SubtitleParser__write, state_of in *.
  destruct (decoder_write SubtitleParser_listeners chunk st) as [[r s1] e1].
  exact Hd.
Qed.

(** X24: an ssa or ass cue of a BlockGroup without a BlockDuration child
    is still emitted; the end time of its Dialogue line is written
    "NaN:NaN:NaN.NaN". *)
Theorem dialogue_without_duration (chunk b : EbmlTag)
    (this : SubtitleParserBase) (tr : Track) (p : list byte) :
  id chunk = BlockGroup ->
  find (fun c => id_eqb (id c) Block) (Children chunk) = Some b ->
  Map_get (subtitleTracks this) (VInt (track b)) = Some tr ->
  readable tr b = Some p ->
  Set_has SSA_TYPES (type tr) = true ->
  find (fun c => id_eqb (id c) BlockDuration) (Children chunk) = None ->
  let values := split comma (Buffer_toString p) in
  let time :=
    nmul (js_plus (value b) (_currentClusterTimecode this)) (timecodeScale this) in
  exists cue,
    parseEbmlSubtitles chunk this
      = (Normal tt, this, [EvSubtitle cue (track b)]) /\
    obj_get cue "duration" = Some (PNum NaN) /\
    obj_get cue "content"
      = Some (PStr ("Dialogue: " ++
                    (if String.eqb (type tr) "ssa" then "Marked=0"
                     else item_string values 1) ++
                    "," ++ toTimeString time true false ++
                    ",NaN:NaN:NaN.NaN," ++ join "," (skipn 2 values))).
Proof.
  intros Hid Hb Hget Hp Hssa Hdur values time.
  eexists. split; [apply block_emits_cue; eassumption|].
  assert (Hnan : nmul (ToNumber (getData chunk BlockDuration)) (timecodeScale this)
                 = NaN).
  { unfold getData. rewrite Hdur. reflexivity. }
  rewrite Hnan. fold time. split; [apply buildSubtitle_time|].
  rewrite buildSubtitle_ssa_content by assumption.
  unfold dialogue. fold values.
  replace (nadd time NaN) with NaN by now destruct time.
  reflexivity.
Qed.

End Parser.

(** ** The timestamp renderer *)

Lemma Qfloor_div_pos (x : Q) (n : positive) :
  Qfloor (x / inject_Z (Zpos n)) = (Qfloor x / Zpos n)%Z.
Proof.
  destruct x as [a b]. unfold Qdiv, Qinv, Qmult, Qfloor, inject_Z. simpl.
  rewrite Z.mul_1_r, Pos2Z.inj_mul. rewrite Z.div_div by lia. reflexivity.
Qed.

Lemma Qfloor_sub_Z (x : Q) (k : Z) :
  Qfloor (x - inject_Z k) = (Qfloor x - k)%Z.
Proof.
  destruct x as [a b]. unfold Qminus, Qplus, Qopp, Qfloor, inject_Z. simpl.
  rewrite Pos.mul_1_r, Z.mul_1_r.
  replace (a + - k * Z.pos b)%Z with (a + (- k) * Z.pos b)%Z by lia.
  rewrite Z.div_add by lia. lia.
Qed.

Lemma Qdiv_pos_nonneg (x : Q) (n : positive) :
  0 <= x -> 0 <= x / inject_Z (Zpos n).
Proof.
  intros H. apply Qle_shift_div_l; [reflexivity|]. now rewrite Qmult_0_l.
Qed.

Lemma Qtrunc_nonneg (x : Q) : 0 <= x -> Qtrunc x = Qfloor x.
Proof. intros H. unfold Qtrunc. apply Qle_bool_iff in H. now rewrite H. Qed.

(** The floor of a remainder by a positive literal, on a nonnegative
    number. *)
Lemma Qfloor_rem (x : Q) (n : positive) :
  0 <= x -> Qfloor (Qrem x n) = (Qfloor x mod Zpos n)%Z.
Proof.
  intros H. unfold Qrem.
  rewrite <- inject_Z_mult, Qfloor_sub_Z.
  rewrite Qtrunc_nonneg by now apply Qdiv_pos_nonneg.
  rewrite Qfloor_div_pos. rewrite Z.mod_eq by lia. reflexivity.
Qed.

Lemma ndiv_Num (x : Q) (n : positive) :
  ndiv (Num x) n = Num (x / inject_Z (Zpos n)).
Proof. reflexivity. Qed.

Lemma nrem_Num (x : Q) (n : positive) : nrem (Num x) n = Num (Qrem x n).
Proof. reflexivity. Qed.

Lemma floor_nrem (x : Q) (n : positive) :
  0 <= x ->
  Math_floor (nrem (Num x) n) = Int (Qfloor x mod Zpos n).
Proof.
  intros H. rewrite nrem_Num. unfold Math_floor. now rewrite Qfloor_rem.
Qed.

Lemma floor_ndiv (x : Q) (n : positive) :
  Math_floor (ndiv (Num x) n) = Int (Qfloor x / Zpos n).
Proof. unfold ndiv, Math_floor. now rewrite Qfloor_div_pos. Qed.

(** The numbers that the renderer computes for a nonnegative time are
    the fields of its whole milliseconds. *)
Lemma time_fields (q : Q) :
  0 <= q ->
  Math_floor (ndiv (ndiv (Num q) 1000) 3600) = Int (hours (Qfloor q)) /\
  Math_floor (nrem (ndiv (ndiv (Num q) 1000) 60) 60) = Int (minutes (Qfloor q)) /\
  Math_floor (nrem (ndiv (Num q) 1000) 60) = Int (seconds (Qfloor q)) /\
  Math_floor (ndiv (nrem (Num q) 1000) 10) = Int (centiseconds (Qfloor q)) /\
  Math_floor (nrem (Num q) 1000) = Int (milliseconds (Qfloor q)).
Proof.
  intros H. unfold hours, minutes, seconds, centiseconds, milliseconds.
  repeat split.
  - rewrite (ndiv_Num q 1000), floor_ndiv, Qfloor_div_pos, Z.div_div by lia.
    reflexivity.
  - rewrite (ndiv_Num q 1000), ndiv_Num.
    rewrite floor_nrem by (do 2 apply Qdiv_pos_nonneg; assumption).
    rewrite !Qfloor_div_pos, Z.div_div by lia. reflexivity.
  - rewrite (ndiv_Num q 1000).
    rewrite floor_nrem by (apply Qdiv_pos_nonneg; assumption).
    rewrite Qfloor_div_pos. reflexivity.
  - rewrite nrem_Num, floor_ndiv, Qfloor_rem by assumption. reflexivity.
  - now apply floor_nrem.
Qed.

(** X25: in ASS style, every time that is a nonnegative double below
    2^53 milliseconds is rendered as the hours unpadded, the minutes and
    the seconds on two digits and the centiseconds on two digits, with
    the separator chosen by the flag. *)
Lemma toTimeString_ass_style (q : Q) (c : bool) :
  round64 q = Num q ->
  0 <= q ->
  (Qfloor q < 2 ^ 53)%Z ->
  toTimeString (Num q) true c =
    Z_to_string (hours (Qfloor q)) ++ ":" ++
    pad2 (minutes (Qfloor q)) ++ ":" ++
    pad2 (seconds (Qfloor q)) ++ (if c then "," else ".") ++
    pad2 (centiseconds (Qfloor q)).
Proof.
  intros _ H _. destruct (time_fields q H) as (Hh & Hm & Hs & Hc & _).
  unfold toTimeString. rewrite Hh, Hm, Hs, Hc. unfold pad2. simpl int_lt.
  simpl int_to_string. rewrite !append_assoc. reflexivity.
Qed.

(** X26: outside ASS style the hours themselves are missing from the
    rendering of every time that is a nonnegative double below 2^53
    milliseconds: only their padding is there. *)
Lemma toTimeString_plain_style (q : Q) (c : bool) :
  round64 q = Num q ->
  0 <= q ->
  (Qfloor q < 2 ^ 53)%Z ->
  toTimeString (Num q) false c =
    (if (hours (Qfloor q) <? 10)%Z then "0" else "") ++ ":" ++
    pad2 (minutes (Qfloor q)) ++ ":" ++
    pad2 (seconds (Qfloor q)) ++ (if c then "," else ".") ++
    pad3 (milliseconds (Qfloor q)).
Proof.
  intros _ H _. destruct (time_fields q H) as (Hh & Hm & Hs & _ & Hf).
  unfold toTimeString. rewrite Hh, Hm, Hs, Hf. unfold pad3, pad2. simpl int_lt.
  simpl int_to_string. rewrite !append_assoc. reflexivity.
Qed.

(** The paddings have the widths they are named after. *)
Lemma pad_widths (z : Z) :
  ((0 <= z < 100)%Z -> String.length (pad2 z) = 2%nat) /\
  ((0 <= z < 1000)%Z -> String.length (pad3 z) = 3%nat).
Proof.
  assert (Hall : forallb (fun n =>
                    (negb (n <? 100)%nat
                     || Nat.eqb (String.length (pad2 (Z.of_nat n))) 2) &&
                    Nat.eqb (String.length (pad3 (Z.of_nat n))) 3)
                  (seq 0 1000) = true) by (vm_compute; reflexivity).
  rewrite forallb_forall in Hall.
  assert (Hz : (0 <= z < 1000)%Z ->
               (negb (Z.to_nat z <? 100)%nat
                || Nat.eqb (String.length (pad2 z)) 2) &&
               Nat.eqb (String.length (pad3 z)) 3 = true).
  { intros Hz. specialize (Hall (Z.to_nat z)).
    rewrite Z2Nat.id in Hall by lia. apply Hall, in_seq. lia. }
  split; intros Hr.
  - assert (Hr' : (0 <= z < 1000)%Z) by lia.
    apply Hz, andb_prop in Hr' as [H2 _].
    apply orb_prop in H2 as [H2 | H2].
    + apply negb_true_iff, Nat.ltb_ge in H2. lia.
    + now apply Nat.eqb_eq.
  - apply Hz, andb_prop in Hr as [_ H3]. now apply Nat.eqb_eq.
Qed.

Lemma string_length_append (a b : string) :
  String.length (a ++ b) = (String.length a + String.length b)%nat.
Proof. induction a; simpl; congruence. Qed.

(** X27: the rendering of a nonnegative time depends on its whole
    milliseconds only: a fraction of a millisecond changes nothing, in
    either style. *)
Theorem toTimeString_whole_milliseconds (q : Q) (ass c : bool) :
  0 <= q ->
  toTimeString (Num q) ass c = toTimeString (ofZ (Qfloor q)) ass c.
Proof.
  intros H.
  assert (H' : 0 <= inject_Z (Qfloor q)).
  { change 0 with (inject_Z 0). rewrite <- Zle_Qle.
    apply Qfloor_resp_le in H. exact H. }
  destruct (time_fields q H) as (Hh & Hm & Hs & Hc & Hf).
  destruct (time_fields (inject_Z (Qfloor q)) H') as (Hh' & Hm' & Hs' & Hc' & Hf').
  rewrite Qfloor_Z in Hh', Hm', Hs', Hc', Hf'.
  unfold toTimeString, ofZ.
  rewrite Hh, Hm, Hs, Hh', Hm', Hs'.
  destruct ass; [rewrite Hc, Hc' | rewrite Hf, Hf']; reflexivity.
Qed.

Lemma Z_to_string_digit (z : Z) :
  (0 <= z < 10)%Z -> String.length (Z_to_string z) = 1%nat.
Proof.
  intros Hz.
  assert (Hall : forallb (fun n => Nat.eqb (String.length (Z_to_string (Z.of_nat n))) 1)
                         (seq 0 10) = true) by (vm_compute; reflexivity).
  rewrite forallb_forall in Hall. specialize (Hall (Z.to_nat z)).
  rewrite Z2Nat.id in Hall by lia. apply Nat.eqb_eq, Hall, in_seq. lia.
Qed.

(** X28: in ASS style a nonnegative time below ten hours is rendered on
    exactly ten characters (h:mm:ss.cc). *)
Theorem toTimeString_ass_length (q : Q) (c : bool) :
  0 <= q -> (Qfloor q < 36000000)%Z ->
  String.length (toTimeString (Num q) true c) = 10%nat.
Proof.
  intros H Hlt.
  assert (Hq : (0 <= Qfloor q)%Z).
  { change 0%Z with (Qfloor (inject_Z 0)). now apply Qfloor_resp_le. }
  destruct (time_fields q H) as (Hh & Hm & Hs & Hc & _).
  unfold toTimeString. rewrite Hh, Hm, Hs, Hc.
  cbn [int_lt int_to_string].
  rewrite !string_length_append.
  assert (Hhr : (0 <= hours (Qfloor q) < 10)%Z).
  { unfold hours. split; [apply Z.div_pos; lia|].
    apply Z.div_lt_upper_bound; lia. }
  assert (Hmn : (0 <= minutes (Qfloor q) < 100)%Z).
  { unfold minutes. pose proof (Z.mod_pos_bound (Qfloor q / 60000) 60). lia. }
  assert (Hsc : (0 <= seconds (Qfloor q) < 100)%Z).
  { unfold seconds. pose proof (Z.mod_pos_bound (Qfloor q / 1000) 60). lia. }
  assert (Hcs : (0 <= centiseconds (Qfloor q) < 100)%Z).
  { unfold centiseconds. pose proof (Z.mod_pos_bound (Qfloor q) 1000).
    split; [apply Z.div_pos; lia|]. apply Z.div_lt_upper_bound; lia. }
  pose proof (proj1 (pad_widths _) Hmn) as Wm.
  pose proof (proj1 (pad_widths _) Hsc) as Ws.
  pose proof (proj1 (pad_widths _) Hcs) as Wc.
  unfold pad2 in Wm, Ws, Wc. rewrite string_length_append in Wm, Ws, Wc.
  rewrite (Z_to_string_digit _ Hhr).
  destruct c; simpl String.length in *; lia.
Qed.

(** ** The timestamp renderer on known values *)

(** C3: outside ASS style the renderer does not print the hours: it
    prints "0" when the hours are below 10 and nothing otherwise, where
    the hours zero-padded to two digits are expected.  107250 ms gives
    "0:01:47,250" and "0:01:47.250" instead of "00:01:47,250" and
    "00:01:47.250", and twelve hours give ":00:00,000"; the ASS rendering
    "0:01:47.25" is as expected. *)
Theorem toTimeString_drops_hours :
  toTimeString (ofZ 107250) false true = "0:01:47,250" /\
  toTimeString (ofZ 107250) false true <> "00:01:47,250" /\
  toTimeString (ofZ 107250) false false = "0:01:47.250" /\
  toTimeString (ofZ 107250) false false <> "00:01:47.250" /\
  toTimeString (ofZ 43200000) false true = ":00:00,000" /\
  toTimeString (ofZ 107250) true false = "0:01:47.25".
Proof. repeat split; try reflexivity; vm_compute; discriminate. Qed.

(** ** Concrete runs *)

(** *** Witnesses *)

Lemma ssa_fields_extracted_witness :
  exists cue,
    parseEbmlSubtitles no_number no_inflate ex_blockgroup ex_parser
      = (Normal tt, ex_parser, [EvSubtitle cue 3]) /\
    obj_get cue "layer" = Some (PStr "1") /\
    obj_get cue "style" = Some (PStr "Default") /\
    obj_get cue "readOrder" = None /\
    obj_get cue "text" = Some (PStr "Hello, world").
Proof.
  destruct (ssa_fields_extracted no_number no_inflate true ex_blockgroup
              ex_block ex_parser ex_track ex_payload
              eq_refl eq_refl eq_refl eq_refl eq_refl)
    as (cue & Hrun & Hkeys & Hnot & Htext & _ & Hex).
  exists cue. split; [exact Hrun|]. split; [|split; [|split]].
  - exact (Hkeys 1%nat (conj (le_n 1) (le_S _ _ (le_S _ _ (le_S _ _ (le_S _ _ (le_S _ _ (le_S _ _ (le_n 1))))))))).
  - exact (proj1 (Hex eq_refl eq_refl)).
  - exact (Hnot 0%nat (le_n 1)).
  - exact (proj2 (Hex eq_refl eq_refl)).
Defined.

Lemma dialogue_line_content_witness :
  exists cue,
    parseEbmlSubtitles no_number no_inflate ex_blockgroup ex_parser
      = (Normal tt, ex_parser, [EvSubtitle cue 3]) /\
    obj_get cue "content"
      = Some (PStr "Dialogue: 1,0:01:47.25,0:01:49.22,Default,,0,0,0,,Hello, world").
Proof.
  destruct (dialogue_line_content no_number no_inflate ex_blockgroup
              ex_block ex_parser ex_track ex_payload
              eq_refl eq_refl eq_refl eq_refl eq_refl)
    as (cue & Hrun & Hcontent & _).
  exists cue. split; [exact Hrun | exact Hcontent].
Defined.

Lemma cue_time_and_duration_witness :
  exists cue,
    parseEbmlSubtitles no_number no_inflate ex_blockgroup_one ex_parser_tenth
      = (Normal tt, ex_parser_tenth, [EvSubtitle cue 3]) /\
    obj_get cue "time" = Some (PNum (Num double_three_tenths)) /\
    obj_get cue "duration" = Some (PNum (Num double_seven_tenths)) /\
    ~ double_three_tenths == 3 # 10.
Proof.
  destruct (cue_time_and_duration no_number no_inflate true ex_blockgroup_one
              ex_block_one ex_parser_tenth ex_track ex_payload 2
              eq_refl eq_refl eq_refl eq_refl eq_refl)
    as (cue & Hrun & _ & Htime & _ & _ & Hdur & _).
  exists cue. split; [exact Hrun|]. split; [|split].
  - exact (Htime double_tenth eq_refl eq_refl).
  - exact (Hdur 7%Z double_tenth eq_refl eq_refl).
  - discriminate.
Defined.

Lemma unregistered_track_dropped_witness :
  parseEbmlSubtitles no_number no_inflate ex_blockgroup_unknown ex_parser
    = (Normal tt, ex_parser, []).
Proof.
  exact (proj1 (unregistered_track_dropped no_number no_inflate true
                  ex_blockgroup_unknown ex_block_unknown ex_parser
                  eq_refl eq_refl eq_refl)).
Defined.

Lemma track_type_from_codec_witness :
  exists this',
    registerEntry (ex_entry "S_TEXT/ASS") SubtitleParserBase_new
      = (Normal tt, this', []) /\
    exists tr,
      subtitleTracks this' = [(VInt 3, tr)] /\ type tr = "ass".
Proof.
  destruct (track_type_from_codec (ex_entry "S_TEXT/ASS") SubtitleParserBase_new
              "S_TEXT/ASS" eq_refl eq_refl)
    as (this' & Hrun & Hyes & _).
  exists this'. split; [exact Hrun|].
  destruct (Hyes eq_refl) as (tr & Hthis & _ & Hty).
  exists tr. split; [|exact Hty].
  rewrite Hthis. reflexivity.
Defined.

Lemma resync_scan_witness :
  unstable ex_stream = true /\
  decoder (state_of (_ondata no_number no_inflate silent_decoder never_throws
                       ex_chunk ex_stream))
    = [skipn 2 ex_chunk] /\
  unstable (state_of (_ondata no_number no_inflate silent_decoder never_throws
                        ex_chunk ex_stream)) = false /\
  _ondata no_number no_inflate silent_decoder never_throws
          ex_chunk_none ex_stream = (Normal tt, ex_stream, []).
Proof.
  split; [reflexivity|].
  destruct (resync_scan no_number no_inflate silent_decoder never_throws
              ex_chunk ex_stream eq_refl) as [Hfound _].
  destruct (resync_scan no_number no_inflate silent_decoder never_throws
              ex_chunk_none ex_stream eq_refl) as [_ Hnone].
  assert (Hfirst : forall j, (j < 2)%nat -> cluster_at ex_chunk j = false).
  { intros [|[|j]] Hj; [reflexivity | reflexivity | lia]. }
  assert (Hlen : (2 + 12 < List.length ex_chunk)%nat) by (simpl; lia).
  destruct (Hfound 2%nat eq_refl Hlen Hfirst) as (_ & _ & Hu & Hd).
  split; [exact Hd|]. split; [exact Hu|].
  apply Hnone. intros i Hi. simpl in Hi.
  do 4 (destruct i as [|i]; [reflexivity|]). lia.
Defined.

Lemma parser_ends_without_tracks_witness :
  state_of (SubtitleParser_write no_number no_inflate ex_decoder never_throws
              [x1a] SubtitleParser_new) = ex_parser_ended /\
  SubtitleParser_write no_number no_inflate ex_decoder never_throws [x45]
                       ex_parser_ended
    = (Thrown, ex_parser_ended, []).
Proof.
  destruct (parser_ends_without_tracks no_number no_inflate ex_decoder
              never_throws [x1a] SubtitleParser_new [] [ex_font] ex_tracks_video
              eq_refl eq_refl eq_refl eq_refl eq_refl) as [Hend Hlater].
  split; [reflexivity | exact (proj1 (Hlater [x45]))].
Defined.

(** *** Where the code departs from the text of the specification *)

(** C5 as stated does not hold: "s_text/ass" starts with the prefix when
    case is ignored but is not registered, and "S_TEXT-ASS" does not
    start with "S_TEXT/" but is registered, with type "ass". *)
Lemma codec_prefix_is_case_sensitive :
  ~ (Map_has (subtitleTracks (ex_after_tracks "s_text/ass")) (VInt 3) = true
     <-> spec_codec_accepted "s_text/ass" = true) /\
  ~ (Map_has (subtitleTracks (ex_after_tracks "S_TEXT-ASS")) (VInt 3) = true
     <-> spec_codec_accepted "S_TEXT-ASS" = true) /\
  option_map type (Map_get (subtitleTracks (ex_after_tracks "S_TEXT-ASS")) (VInt 3))
    = Some "ass".
Proof.
  split; [|split].
  - intros [_ H]. specialize (H eq_refl). discriminate H.
  - intros [H _]. specialize (H eq_refl). discriminate H.
  - reflexivity.
Qed.

(** C6 as stated does not hold: a cluster header in the last twelve
    bytes of a chunk passes the test but is not looked at, so the stream
    stays unstable and the chunk is dropped; and of two headers in a
    chunk only the first is taken. *)
Lemma resync_skips_late_signature :
  cluster_at ex_chunk_short 0 = true /\
  _ondata no_number no_inflate silent_decoder never_throws
          ex_chunk_short ex_stream = (Normal tt, ex_stream, []) /\
  unstable (state_of (_ondata no_number no_inflate silent_decoder never_throws
                        ex_chunk_short ex_stream)) = true /\
  cluster_at ex_chunk_two 6 = true /\
  decoder (state_of (_ondata no_number no_inflate silent_decoder never_throws
                       ex_chunk_two ex_stream))
    <> [skipn 6 ex_chunk_two].
Proof.
  repeat split; try reflexivity. vm_compute. discriminate.
Qed.

(** C9 as stated does not hold: the font that the decoder delivers after
    the Tracks element, from the same chunk, is still emitted as a file
    event although the parser has ended its stream by then. *)
Lemma parser_emits_file_after_end :
  state_of (deliver (SubtitleParser_listeners no_number no_inflate)
              [ex_tracks_video] (with_chunk SubtitleParser_new [x1a]))
    = ex_parser_ended /\
  Map_size (subtitleTracks ex_parser_ended) = 0%nat /\
  ended ex_parser_ended = true /\
  events_of (deliver (SubtitleParser_listeners no_number no_inflate) [ex_font]
               ex_parser_ended)
    = [EvFile (VStr "Arial.ttf") (VStr "application/x-truetype-font")
              (VBuf [x00; x01])] /\
  events_of (SubtitleParser_write no_number no_inflate ex_decoder never_throws
               [x1a] SubtitleParser_new)
    = [EvTracks [];
       EvFile (VStr "Arial.ttf") (VStr "application/x-truetype-font")
              (VBuf [x00; x01])].
Proof. repeat split; reflexivity. Qed.

(** *** Witnesses of the further properties *)

Lemma only_tracks_change_registry_witness :
  (subtitleTracks
     (state_of (parseEbmlSubtitles no_number no_inflate ex_scale_tenth ex_parser))
     = subtitleTracks ex_parser /\
   timecodeScale
     (state_of (parseEbmlSubtitles no_number no_inflate ex_scale_tenth ex_parser))
     = Num double_tenth) /\
  timecodeScale
    (state_of (parseEbmlSubtitles no_number no_inflate ex_tracks_mixed
                 ex_parser_tenth))
    = Num double_tenth.
Proof.
  split.
  - destruct (only_tracks_change_registry no_number no_inflate true
                ex_scale_tenth ex_parser) as (Hreg & _ & Hscale).
    split.
    + apply Hreg. discriminate.
    + exact (Hscale 100000%Z eq_refl eq_refl).
  - destruct (only_tracks_change_registry no_number no_inflate true
                ex_tracks_mixed ex_parser_tenth) as (_ & Hscale & _).
    exact Hscale.
Defined.

Lemma registry_never_shrinks_witness :
  Map_has (subtitleTracks
             (state_of (parseEbmlSubtitles no_number no_inflate ex_tracks_mixed
                          ex_parser))) (VInt 3) = true /\
  (Map_size (subtitleTracks ex_parser)
   <= Map_size (subtitleTracks
                  (state_of (parseEbmlSubtitles no_number no_inflate
                               ex_tracks_mixed ex_parser))))%nat.
Proof.
  exact (registry_never_shrinks no_number no_inflate true ex_tracks_mixed
           ex_parser (VInt 3) eq_refl).
Defined.

Lemma attached_file_emitted_witness :
  parseEbmlSubtitles no_number no_inflate ex_font ex_parser
    = (Normal tt, ex_parser,
       [EvFile (VStr "Arial.ttf") (VStr "application/x-truetype-font")
               (VBuf [x00; x01])]).
Proof.
  exact (proj1 (attached_file_emitted no_number no_inflate true ex_font
                  ex_parser eq_refl)).
Defined.

Lemma track_upsert_witness :
  Map_get (subtitleTracks (state_of (registerEntry ex_entry_full ex_parser)))
          (VInt 3) = Some (entry_track ex_entry_full "S_TEXT/ASS") /\
  Map_size (subtitleTracks (state_of (registerEntry ex_entry_full ex_parser)))
    = 1%nat.
Proof.
  destruct (track_upsert ex_entry_full ex_parser "S_TEXT/ASS" 3
              eq_refl eq_refl eq_refl eq_refl) as (Hget & Hsize & _).
  split; [exact Hget | exact Hsize].
Defined.

Lemma track_record_fields_witness :
  exists tr,
    Map_get (subtitleTracks
               (state_of (registerEntry ex_entry_full SubtitleParserBase_new)))
            (VInt 3) = Some tr /\
    language tr = VStr "jpn" /\
    name tr = Some (VStr "Signs") /\
    header tr = Some "[Script Info]" /\
    _compressed tr = true.
Proof.
  destruct (track_record_fields ex_entry_full SubtitleParserBase_new
              "S_TEXT/ASS" 3 eq_refl eq_refl eq_refl eq_refl)
    as (tr & Hget & _ & Hlang & _ & _ & Hname & _ & Hheader & Hcomp).
  exists tr. split; [exact Hget|]. split; [exact Hlang|].
  split; [exact (Hname "Signs" eq_refl)|].
  split; [exact (Hheader (list_byte_of_string "[Script Info]") eq_refl)|].
  exact Hcomp.
Defined.

Lemma entry_passed_over_witness :
  registerEntry ex_entry_no_codec ex_parser = (Normal tt, ex_parser, []).
Proof.
  apply (entry_passed_over ex_entry_no_codec ex_parser).
  right. left. reflexivity.
Defined.

Lemma tracks_event_lists_registry_witness :
  events_of (parseEbmlSubtitles no_number no_inflate ex_tracks_mixed ex_parser)
    = [EvTracks [entry_track ex_entry_full "S_TEXT/ASS"]] /\
  completion_of (parseEbmlSubtitles no_number no_inflate ex_tracks_mixed ex_parser)
    = Normal tt.
Proof.
  destruct (tracks_event_lists_registry no_number no_inflate true
              ex_tracks_mixed ex_parser eq_refl) as [Hev Hok].
  split; [exact Hev | exact (Hok eq_refl)].
Defined.

Lemma tracks_without_subtitles_witness :
  parseEbmlSubtitles no_number no_inflate ex_tracks_video ex_parser
    = (Normal tt, ex_parser, [EvTracks [ex_track]]).
Proof.
  exact (tracks_without_subtitles no_number no_inflate true ex_tracks_video
           ex_parser eq_refl eq_refl).
Defined.

Lemma cue_shape_witness :
  exists cue,
    In (EvSubtitle cue 3)
       (events_of (dist_parseEbmlSubtitles no_number no_inflate ex_blockgroup
                     ex_parser)) /\
    (exists text, obj_get cue "text" = Some (PStr text)) /\
    obj_get cue "content" = None.
Proof.
  eexists. split; [left; reflexivity|].
  destruct (cue_shape no_number no_inflate false ex_blockgroup ex_parser _ 3
              (or_introl eq_refl)) as (Htext & _ & _ & Hcontent).
  split; [exact Htext | exact Hcontent].
Defined.

Lemma plain_cue_content_witness :
  exists cue,
    parseEbmlSubtitles no_number no_inflate ex_blockgroup_utf8 ex_parser_fresh
      = (Normal tt, ex_parser_fresh, [EvSubtitle cue 2]) /\
    obj_get cue "text" = Some (PStr "This blade has a dark past.") /\
    obj_get cue "style" = None.
Proof.
  destruct (plain_cue_content no_number no_inflate ex_blockgroup_utf8
              ex_block_utf8 ex_parser_fresh ex_track_utf8
              (list_byte_of_string "This blade has a dark past.")
              eq_refl eq_refl eq_refl eq_refl eq_refl)
    as (cue & Hrun & Htext & Hkeys & _).
  exists cue. split; [exact Hrun|]. split; [exact Htext|].
  exact (Hkeys 2%nat (le_S _ _ (le_S _ _ (le_S _ _ (le_S _ _ (le_S _ _ (le_n 3))))))).
Defined.

Lemma block_before_cluster_timecode_witness :
  exists cue,
    parseEbmlSubtitles no_number no_inflate ex_blockgroup_three
                       ex_parser_tenth_fresh
      = (Normal tt, ex_parser_tenth_fresh, [EvSubtitle cue 3]) /\
    obj_get cue "time" = Some (PNum (Num double_three_tenths)).
Proof.
  destruct (block_before_cluster_timecode no_number no_inflate true
              ex_blockgroup_three ex_block_three ex_parser_tenth_fresh
              ex_track ex_payload eq_refl eq_refl eq_refl eq_refl eq_refl)
    as (cue & Hrun & _ & Htime).
  exists cue. split; [exact Hrun|].
  exact (Htime double_tenth eq_refl).
Defined.

Lemma inflate_failure_throws_witness :
  parseEbmlSubtitles no_number no_inflate ex_blockgroup_compressed ex_parser_fresh
    = (Thrown, ex_parser_fresh, []).
Proof.
  exact (inflate_failure_throws no_number no_inflate true
           ex_blockgroup_compressed ex_block_compressed ex_parser_fresh
           ex_track_compressed eq_refl eq_refl eq_refl eq_refl eq_refl).
Defined.

Lemma inflated_text_witness :
  (exists cue,
     parseEbmlSubtitles no_number ex_inflate_ass ex_blockgroup_compressed
                        ex_parser_fresh
       = (Normal tt, ex_parser_fresh, [EvSubtitle cue 6]) /\
     obj_get cue "text" = Some (PStr "Hello, world")) /\
  (exists cue,
     parseEbmlSubtitles no_number ex_inflate ex_blockgroup_compressed
                        ex_parser_compressed_utf8
       = (Normal tt, ex_parser_compressed_utf8, [EvSubtitle cue 6]) /\
     obj_get cue "text" = Some (PStr "Hello")).
Proof.
  split.
  - exact (inflated_text no_number ex_inflate_ass ex_blockgroup_compressed
             ex_block_compressed ex_parser_fresh ex_track_compressed
             ex_payload eq_refl eq_refl eq_refl eq_refl eq_refl).
  - exact (inflated_text no_number ex_inflate ex_blockgroup_compressed
             ex_block_compressed ex_parser_compressed_utf8
             ex_track_compressed_utf8 (list_byte_of_string "Hello")
             eq_refl eq_refl eq_refl eq_refl eq_refl).
Defined.

Lemma dialogue_line_from_cue_fields_witness :
  exists cue style text content,
    parseEbmlSubtitles no_number no_inflate ex_blockgroup ex_parser
      = (Normal tt, ex_parser, [EvSubtitle cue 3]) /\
    obj_get cue "style" = Some (PStr style) /\
    obj_get cue "text" = Some (PStr text) /\
    obj_get cue "content" = Some (PStr content).
Proof.
  assert (Hlen : (9 <= List.length (split comma (Buffer_toString ex_payload)))%nat).
  { vm_compute. apply le_S, le_n. }
  destruct (dialogue_line_from_cue_fields no_number no_inflate ex_blockgroup
              ex_block ex_parser ex_track ex_payload
              eq_refl eq_refl eq_refl eq_refl eq_refl Hlen)
    as (cue & layer & style & name & mL & mR & mV & effect & text & Hrun & _ &
        Hstyle & _ & _ & _ & _ & _ & Htext & Hcontent).
  exists cue, style, text. eexists.
  split; [exact Hrun|]. split; [exact Hstyle|]. split; [exact Htext|].
  exact Hcontent.
Defined.

Lemma scale_timecode_block_witness :
  exists cue this',
    forEach [ex_scale_tenth; ex_timecode_two; ex_blockgroup_one]
            (parseEbmlSubtitles no_number no_inflate) ex_parser_fresh
      = (Normal tt, this', [EvSubtitle cue 3]) /\
    obj_get cue "time" = Some (PNum (Num double_three_tenths)) /\
    timecodeScale this' = Num double_tenth.
Proof.
  destruct (scale_timecode_block no_number no_inflate true ex_scale_tenth
              ex_timecode_two ex_blockgroup_one ex_block_one ex_parser_fresh
              ex_track ex_payload 100000 2
              eq_refl eq_refl eq_refl eq_refl eq_refl eq_refl eq_refl eq_refl)
    as (cue & this' & Hrun & Htime & _ & Hscale & _).
  exists cue, this'. split; [exact Hrun|]. split; [exact Htime | exact Hscale].
Defined.

Lemma scan_finds_first_witness :
  scan ex_chunk = Some 2%nat /\
  cluster_at ex_chunk 2 = true /\
  (2 + 12 < List.length ex_chunk)%nat.
Proof.
  split; [reflexivity|].
  destruct (scan_finds_first ex_chunk 2 eq_refl) as (Hat & Hlen & _).
  split; [exact Hat | exact Hlen].
Defined.

Lemma short_chunk_dropped_witness :
  _ondata no_number no_inflate silent_decoder never_throws ex_chunk_short ex_stream
    = (Normal tt, ex_stream, []).
Proof.
  apply (short_chunk_dropped no_number no_inflate silent_decoder never_throws
           ex_chunk_short ex_stream eq_refl).
  simpl. lia.
Defined.

Lemma resync_run_witness :
  unstable (state_of (forEach [ex_chunk_none; ex_chunk_short; ex_chunk; ex_chunk_none]
                        (_ondata no_number no_inflate silent_decoder never_throws)
                        ex_stream)) = false /\
  decoder (state_of (forEach [ex_chunk_none; ex_chunk_short; ex_chunk; ex_chunk_none]
                       (_ondata no_number no_inflate silent_decoder never_throws)
                       ex_stream))
    = [skipn 2 ex_chunk; ex_chunk_none].
Proof.
  destruct (resync_run no_number no_inflate silent_decoder never_throws
              [ex_chunk_none; ex_chunk_short] [ex_chunk_none] ex_chunk 2
              ex_stream eq_refl eq_refl eq_refl) as (_ & Hu & Hd).
  split; [exact Hu | exact Hd].
Defined.

Lemma stream_contains_listener_error_witness :
  _ondata no_number no_inflate ex_decoder_blocks never_throws [x00] ex_parser_fresh
    = (Normal tt, with_chunk ex_parser_fresh [x00], []).
Proof.
  exact (stream_contains_listener_error no_number no_inflate ex_decoder_blocks
           never_throws [x00] ex_parser_fresh (with_chunk ex_parser_fresh [x00])
           (with_chunk ex_parser_fresh [x00]) [] [ex_blockgroup_utf8]
           ex_blockgroup_compressed [] [] eq_refl eq_refl eq_refl eq_refl).
Defined.

Lemma parser_propagates_listener_error_witness :
  SubtitleParser_write no_number no_inflate ex_decoder_blocks never_throws [x00]
                       ex_parser_fresh
    = (Thrown, with_chunk ex_parser_fresh [x00], []).
Proof.
  exact (parser_propagates_listener_error no_number no_inflate ex_decoder_blocks
           never_throws [x00] ex_parser_fresh (with_chunk ex_parser_fresh [x00])
           (with_chunk ex_parser_fresh [x00]) [] [ex_blockgroup_utf8]
           ex_blockgroup_compressed [] [] eq_refl eq_refl eq_refl eq_refl).
Defined.

Lemma end_only_on_empty_tracks_witness :
  id ex_tracks_video = Tracks /\
  Map_size (subtitleTracks
              (state_of (forEach (SubtitleParser_listeners no_number no_inflate)
                           (fun l => l ex_tracks_video) SubtitleParser_new)))
    = 0%nat.
Proof.
  exact (end_only_on_empty_tracks no_number no_inflate ex_tracks_video
           SubtitleParser_new eq_refl eq_refl).
Defined.

Lemma parser_write_reaches_decoder_witness :
  decoder (state_of (SubtitleParser_write no_number no_inflate ex_decoder
                       never_throws [x1a] SubtitleParser_new))
    = [[x1a]].
Proof.
  exact (parser_write_reaches_decoder no_number no_inflate ex_decoder
           never_throws [x1a] SubtitleParser_new eq_refl).
Defined.

Lemma dialogue_without_duration_witness :
  exists cue,
    parseEbmlSubtitles no_number no_inflate ex_blockgroup_no_duration ex_parser
      = (Normal tt, ex_parser, [EvSubtitle cue 3]) /\
    obj_get cue "duration" = Some (PNum NaN) /\
    obj_get cue "content"
      = Some (PStr "Dialogue: 1,0:01:47.25,NaN:NaN:NaN.NaN,Default,,0,0,0,,Hello, world").
Proof.
  exact (dialogue_without_duration no_number no_inflate ex_blockgroup_no_duration
           ex_block ex_parser ex_track ex_payload
           eq_refl eq_refl eq_refl eq_refl eq_refl eq_refl).
Defined.

Lemma toTimeString_ass_style_witness :
  toTimeString (Num (214501 # 2)) true false = "0:01:47.25".
Proof.
  exact (toTimeString_ass_style (214501 # 2) false eq_refl
           (fun H : (0 * 2 ?= 214501 * 1)%Z = Gt => ltac:(discriminate H))
           eq_refl).
Defined.

Lemma toTimeString_plain_style_witness :
  toTimeString (Num (214501 # 2)) false true = "0:01:47,250".
Proof.
  exact (toTimeString_plain_style (214501 # 2) true eq_refl
           (fun H : (0 * 2 ?= 214501 * 1)%Z = Gt => ltac:(discriminate H))
           eq_refl).
Defined.

Lemma toTimeString_whole_milliseconds_witness :
  toTimeString (Num (214501 # 2)) true false
    = toTimeString (ofZ 107250) true false.
Proof.
  exact (toTimeString_whole_milliseconds (214501 # 2) true false
           (fun H : (0 * 2 ?= 214501 * 1)%Z = Gt => ltac:(discriminate H))).
Defined.

Lemma toTimeString_ass_length_witness :
  String.length (toTimeString (Num (214501 # 2)) true false) = 10%nat.
Proof.
  exact (toTimeString_ass_length (214501 # 2) false
           (fun H : (0 * 2 ?= 214501 * 1)%Z = Gt => ltac:(discriminate H))
           eq_refl).
Defined.
